(** * Disaster Sentinel: a shallow embedding of [src/main.py]

    The service polls the GDACS feed, normalises its records into canonical
    events, keeps them in a process-wide cache, grades each subscriber's
    exposure and throttles the alerts it emits.  This development embeds the
    functions of [main.py] that carry that logic and proves, or refutes, the
    properties stated about them.

    Conventions.
    - Python values that reach the code from JSON are the inductive [pyval];
      a JSON object is a [gmap string pyval], so [ev.get(k)] is a lookup
      that answers [PyNone] for a missing key.
    - Python floats are IEEE binary64 values, [spec_float] with the
      precision and exponent range of binary64.
    - Exceptions are values of [pyexc]; a computation that can raise returns
      [pyexc + A], and every [try/except] of the source is a [match] on it.
    - The module globals [ALERTS], [LAST_ALERT] and [CACHE] are threaded
      explicitly in a [World], together with the count of HTTP requests
      issued; the upstream feed is an input, and so is the clock, read once
      per call.
    - Durations are exact integers of microseconds, as [timedelta] holds
      them; [total_seconds()] and the quotients [classify_alert_level] takes
      of it are binary64 divisions, each rounded to nearest.
    - Library functions whose text is not part of the repository
      ([float] on a [str], [str], [datetime.fromisoformat],
      [datetime.isoformat], [datetime.fromtimestamp]) are the fields of the
      class [PyRuntime]; every theorem holds for every runtime. *)

From Stdlib Require Import ZArith QArith Qround Qpower Qfield Lqa String Ascii List Lia.
From Stdlib Require Import Floats.SpecFloat.
From stdpp Require Import gmap strings list fin_maps pretty.

Set Warnings "-register-all".

Local Open Scope string_scope.
Local Open Scope Z_scope.

(** ** Python strings (ASCII fragment) *)

(** [str.lower()] on one character. *)
Definition ascii_lower (c : ascii) : ascii :=
  let n := nat_of_ascii c in
  if ((65 <=? n) && (n <=? 90))%nat then ascii_of_nat (n + 32) else c.

(** [s.lower()]. *)
Fixpoint lower (s : string) : string :=
  match s with
  | EmptyString => EmptyString
  | String c r => String (ascii_lower c) (lower r)
  end.

(** [needle in hay] for two strings. *)
Fixpoint contains (needle hay : string) : bool :=
  String.prefix needle hay ||
  match hay with
  | EmptyString => false
  | String _ r => contains needle r
  end.

(** [s.replace('Z', '+00:00')]. *)
Fixpoint replace_Z (s : string) : string :=
  match s with
  | EmptyString => EmptyString
  | String c r =>
      if Ascii.eqb c "Z" then "+00:00" +:+ replace_Z r
      else String c (replace_Z r)
  end.

(** [s.endswith('Z')]. *)
Fixpoint endswith_Z (s : string) : bool :=
  match s with
  | EmptyString => false
  | String c EmptyString => Ascii.eqb c "Z"
  | String _ r => endswith_Z r
  end.

(** ** The type mapper *)

Definition map_gdacs_type (gdacs_title : string) : string :=
  let title := lower gdacs_title in
  if contains "fire" title || contains "wildfire" title then "Wildfire"
  else if contains "storm" title || contains "cyclone" title
          || contains "hurricane" title || contains "typhoon" title
  then "Hurricane"
  else if contains "flood" title then "Flood"
  else if contains "volcano" title then "Volcano"
  else if contains "earthquake" title then "Earthquake"
  else gdacs_title.

(** The mapping as the specification words it: a title mentions a keyword
    when some substring of the title equals the keyword up to letter case;
    the rows are tried in order and the first row with a mentioned keyword
    decides.  Letter case is that of the 26 letters of the Latin alphabet,
    stated here without reference to [lower]. *)
Definition upper_case : string := "ABCDEFGHIJKLMNOPQRSTUVWXYZ".
Definition lower_case : string := "abcdefghijklmnopqrstuvwxyz".

(** Each letter in its two cases. *)
Definition letter_cases : list (ascii * ascii) :=
  combine (list_ascii_of_string upper_case) (list_ascii_of_string lower_case).

(** Two characters equal up to letter case. *)
Definition same_letter (a b : ascii) : Prop :=
  a = b ∨ (a, b) ∈ letter_cases ∨ (b, a) ∈ letter_cases.

(** Two strings equal up to letter case. *)
Inductive same_up_to_case : string → string → Prop :=
| same_empty : same_up_to_case "" ""
| same_more a b u v :
    same_letter a b → same_up_to_case u v →
    same_up_to_case (String a u) (String b v).

Definition mentions (title kw : string) : Prop :=
  ∃ pre w post, title = pre +:+ w +:+ post ∧ same_up_to_case w kw.

Definition mentions_any (title : string) (kws : list string) : Prop :=
  Exists (mentions title) kws.

Definition type_table : list (list string * string) :=
  [ (["fire"; "wildfire"], "Wildfire");
    (["storm"; "cyclone"; "hurricane"; "typhoon"], "Hurricane");
    (["flood"], "Flood");
    (["volcano"], "Volcano");
    (["earthquake"], "Earthquake") ].

(** [first_match title rows r]: [r] is the result of the first row of [rows]
    one of whose keywords the title mentions, or the title itself when no
    row applies. *)
Inductive first_match (title : string) :
  list (list string * string) → string → Prop :=
| fm_passthrough : first_match title [] title
| fm_here kws ty rows :
    mentions_any title kws → first_match title ((kws, ty) :: rows) ty
| fm_later kws ty rows r :
    ¬ mentions_any title kws → first_match title rows r →
    first_match title ((kws, ty) :: rows) r.

(** ** Python values, exceptions and floats *)

(** Python's [float]: IEEE binary64. *)
Abbreviation float := spec_float.
Definition b64_prec : Z := 53.
Definition b64_emax : Z := 1024.

(** The float nearest to an integer (ties to even); an infinity when the
    integer is beyond the range of binary64. *)
Definition Z2SF (z : Z) : float := binary_normalize b64_prec b64_emax z 0 false.

Definition float_mul (x y : float) : float := SFmul b64_prec b64_emax x y.
Definition float_div (x y : float) : float := SFdiv b64_prec b64_emax x y.

(** The literals [0.5], [1.5], [1000.0] and [1e10]. *)
Definition f_0_5 : float := S754_finite false (2 ^ 52) (-53).
Definition f_1_5 : float := S754_finite false (3 * 2 ^ 51) (-52).
Definition f_1000 : float := Z2SF 1000.
Definition f_1e10 : float := Z2SF (10 ^ 10).

Definition is_finite (x : float) : bool :=
  match x with
  | S754_zero _ | S754_finite _ _ _ => true
  | S754_infinity _ | S754_nan => false
  end.

(** A value as [json.loads] builds it. *)
Inductive pyval : Type :=
| PyNone
| PyBool (b : bool)
| PyInt (n : Z)
| PyFloat (x : float)
| PyStr (s : string)
| PyList (xs : list pyval)
| PyDict (d : gmap string pyval).

(** The exception classes that occur in the modelled code. *)
Inductive pyexc := ValueError | TypeError | OSError | OverflowError | AttributeError.

Global Instance pyexc_eq_dec : EqDecision pyexc.
Proof. solve_decision. Defined.

(** [except (E1, E2, ...)]: does the handler take this exception? *)
Definition caught (handlers : list pyexc) (x : pyexc) : bool :=
  bool_decide (x ∈ handlers).

(** Truth value of an object, as [if v], [not v] and [v or w] test it. *)
Definition truthy (v : pyval) : bool :=
  match v with
  | PyNone => false
  | PyBool b => b
  | PyInt n => negb (n =? 0)%Z
  | PyFloat x => match x with S754_zero _ => false | _ => true end
  | PyStr s => negb (String.eqb s "")
  | PyList xs => match xs with [] => false | _ => true end
  | PyDict d => match map_to_list d with [] => false | _ => true end
  end.

(** [a or b]. *)
Definition py_or (a b : pyval) : pyval := if truthy a then a else b.

Definition is_none (v : pyval) : bool :=
  match v with PyNone => true | _ => false end.

(** [d.get(k)] and [d.get(k, dflt)]. *)
Definition dict_get (d : gmap string pyval) (k : string) : pyval :=
  default PyNone (d !! k).
Definition dict_get_or (d : gmap string pyval) (k : string) (dflt : pyval) : pyval :=
  default dflt (d !! k).

(** A number as [datetime.fromtimestamp] receives it. *)
Inductive number := NInt (n : Z) | NFloat (x : float).

(** ** Dates and times *)

(** A [datetime] object: its calendar fields, counted in microseconds from
    1970-01-01T00:00:00 on its own wall clock, and its [tzinfo] as the UTC
    offset in microseconds ([None] for a naive object). *)
Record datetime := { wall_us : Z; utcoffset : option Z }.

(** [datetime.now(timezone.utc)] at the instant [t] (microseconds of Unix
    time). *)
Definition utc (t : Z) : datetime := {| wall_us := t; utcoffset := Some 0 |}.

(** [dt.replace(tzinfo=timezone.utc)]. *)
Definition replace_tzinfo_utc (dt : datetime) : datetime :=
  {| wall_us := wall_us dt; utcoffset := Some 0 |}.

(** The idiom [if dt.tzinfo is None: dt = dt.replace(tzinfo=timezone.utc)]. *)
Definition assume_utc (dt : datetime) : datetime :=
  match utcoffset dt with
  | None => replace_tzinfo_utc dt
  | Some _ => dt
  end.

(** [a - b] on datetimes: a [timedelta], in microseconds.  Mixing a naive
    and an aware object raises [TypeError]. *)
Definition dt_sub (a b : datetime) : pyexc + Z :=
  match utcoffset a, utcoffset b with
  | Some oa, Some ob => inr ((wall_us a - oa) - (wall_us b - ob))
  | None, None => inr (wall_us a - wall_us b)
  | _, _ => inl TypeError
  end.

(** [a >= b] on datetimes. *)
Definition dt_ge (a b : datetime) : pyexc + bool :=
  match dt_sub a b with
  | inr d => inr (0 <=? d)
  | inl x => inl x
  end.

(** [timedelta(hours=h)], in microseconds. *)
Definition timedelta_hours (h : Z) : Z := h * 3600 * 1000000.

(** [dt - timedelta(hours=h)]. *)
Definition dt_minus_hours (dt : datetime) (h : Z) : datetime :=
  {| wall_us := wall_us dt - timedelta_hours h; utcoffset := utcoffset dt |}.

(** ** The Python runtime *)

Class PyRuntime := {
  (** [float(s)] for a [str]; [None] is [ValueError]. *)
  float_of_str : string → option float;
  (** [str(v)]. *)
  py_str : pyval → string;
  (** [datetime.fromisoformat(s)]; [None] is [ValueError]. *)
  fromisoformat : string → option datetime;
  (** [dt.isoformat()]. *)
  isoformat : datetime → string;
  (** [datetime.fromtimestamp(x, tz=timezone.utc)]. *)
  fromtimestamp_utc : number → pyexc + datetime;
}.

Section Service.
Context {rt : PyRuntime}.

(** ** Builtin conversions *)

(** [float(v)]. *)
Definition py_float (v : pyval) : pyexc + float :=
  match v with
  | PyNone => inl TypeError
  | PyBool b => inr (Z2SF (if b then 1 else 0))
  | PyInt n =>
      match Z2SF n with
      | S754_infinity _ => inl OverflowError
      | x => inr x
      end
  | PyFloat x => inr x
  | PyStr s =>
      match float_of_str s with
      | Some x => inr x
      | None => inl ValueError
      end
  | PyList _ | PyDict _ => inl TypeError
  end.

(** [for ev in data]: the items an iteration over [data] yields. *)
Definition py_iter (data : pyval) : pyexc + list pyval :=
  match data with
  | PyList xs => inr xs
  | PyDict d => inr ((λ kv, PyStr kv.1) <$> map_to_list d)
  | PyStr s => inr ((λ c, PyStr (String c EmptyString)) <$> list_ascii_of_string s)
  | PyNone | PyBool _ | PyInt _ | PyFloat _ => inl TypeError
  end.

(** ** The event normaliser *)

(** A canonical event, the dictionary built at the end of the loop body. *)
Record Event := {
  ev_id : string;
  ev_type : string;
  ev_coordinates : float * float;
  ev_severity : pyval;
  ev_timestamp : string;
}.

Definition probe_lat (ev : gmap string pyval) : pyval :=
  let lat := dict_get ev "latitude" in
  if is_none lat then dict_get ev "lat" else lat.

Definition probe_lon (ev : gmap string pyval) : pyval :=
  let lon := dict_get ev "longitude" in
  let lon := if is_none lon then dict_get ev "lon" else lon in
  if is_none lon then dict_get ev "lng" else lon.

(** [ev.get("eventtype") or ev.get("title") or ev.get("eventType") or "Disaster"]. *)
Definition probe_type (ev : gmap string pyval) : pyval :=
  py_or (dict_get ev "eventtype")
    (py_or (dict_get ev "title")
       (py_or (dict_get ev "eventType") (PyStr "Disaster"))).

(** [ev.get("eventid") or ev.get("id") or ev.get("eventId", "")]. *)
Definition probe_id (ev : gmap string pyval) : pyval :=
  py_or (dict_get ev "eventid")
    (py_or (dict_get ev "id") (dict_get_or ev "eventId" (PyStr ""))).

(** [ev.get("alertlevel") or ev.get("alertLevel") or "unknown"]. *)
Definition probe_severity (ev : gmap string pyval) : pyval :=
  py_or (dict_get ev "alertlevel")
    (py_or (dict_get ev "alertLevel") (PyStr "unknown")).

Definition ts_fields : list string :=
  ["fromdate"; "eventdate"; "publisheddate"; "date"; "fromDate"; "eventDate"].

(** [ts_value > 1e10] for a number. *)
Definition gt_1e10 (x : number) : bool :=
  match x with
  | NInt n => 10 ^ 10 <? n
  | NFloat x => SFltb f_1e10 x
  end.

(** [ts_value / 1000.0]: an [int] is converted to a float first. *)
Definition div_1000 (x : number) : pyexc + float :=
  match x with
  | NInt n =>
      match Z2SF n with
      | S754_infinity _ => inl OverflowError
      | y => inr (float_div y f_1000)
      end
  | NFloat y => inr (float_div y f_1000)
  end.

(** The numeric branch of the timestamp parser: epoch milliseconds above
    [1e10], epoch seconds otherwise. *)
Definition parse_epoch (x : number) : pyexc + option string :=
  if gt_1e10 x then
    match div_1000 x with
    | inl e => inl e
    | inr y =>
        match fromtimestamp_utc (NFloat y) with
        | inl e => inl e
        | inr dt => inr (Some (isoformat dt))
        end
    end
  else
    match fromtimestamp_utc x with
    | inl e => inl e
    | inr dt => inr (Some (isoformat dt))
    end.

(** The body of the [try] for one truthy [ts_value], up to its [break]: the
    value [event_timestamp] has afterwards, or the exception raised. *)
Definition parse_ts_value (ts_value : pyval) : pyexc + option string :=
  match ts_value with
  | PyStr s =>
      match fromisoformat (replace_Z s) with
      | Some dt => inr (Some (isoformat dt))
      | None => inl ValueError
      end
  | PyBool b => parse_epoch (NInt (if b then 1 else 0))
  | PyInt n => parse_epoch (NInt n)
  | PyFloat x => parse_epoch (NFloat x)
  | PyNone | PyList _ | PyDict _ => inr None
  end.

(** The loop over the timestamp aliases.  A handled exception moves on to
    the next alias, any other one leaves the function. *)
Fixpoint probe_timestamp (fields : list string) (ev : gmap string pyval)
  : pyexc + option string :=
  match fields with
  | [] => inr None
  | ts_field :: fields =>
      let ts_value := dict_get ev ts_field in
      if truthy ts_value then
        match parse_ts_value ts_value with
        | inr event_timestamp => inr event_timestamp
        | inl e =>
            if caught [ValueError; TypeError; OSError] e
            then probe_timestamp fields ev
            else inl e
        end
      else probe_timestamp fields ev
  end.

(** What one pass of the loop body does with a record. *)
Inductive outcome :=
| Emit (e : Event)     (* reaches [events.append] *)
| Skip                 (* [continue] *)
| Raise (x : pyexc).   (* an exception leaves the loop *)

(** The loop body shared by [fetch_gdacs_events] and
    [fetch_recent_gdacs_events], from the coordinate probes to the event
    dictionary. *)
Definition normalize (now : datetime) (ev : gmap string pyval) : outcome :=
  let lat := probe_lat ev in
  let lon := probe_lon ev in
  if is_none lat || is_none lon then Skip else
  match py_float lat with
  | inl e => if caught [ValueError; TypeError] e then Skip else Raise e
  | inr lat_float =>
  match py_float lon with
  | inl e => if caught [ValueError; TypeError] e then Skip else Raise e
  | inr lon_float =>
  match probe_type ev with
  | PyStr disaster_type =>
      let mapped_type := map_gdacs_type disaster_type in
      match probe_timestamp ts_fields ev with
      | inl e => Raise e
      | inr event_timestamp =>
          let event_timestamp := default (isoformat now) event_timestamp in
          Emit {| ev_id := py_str (probe_id ev);
                  ev_type := mapped_type;
                  ev_coordinates := (lat_float, lon_float);
                  ev_severity := probe_severity ev;
                  ev_timestamp := event_timestamp |}
      end
  | _ => Raise AttributeError   (* [.lower()] on a value that is no [str] *)
  end
  end
  end.

(** [for ev in data: ...] of [fetch_gdacs_events].  [ev.get] on a record that
    is not a dictionary raises [AttributeError]. *)
Fixpoint normalize_all (now : datetime) (data : list pyval) : pyexc + list Event :=
  match data with
  | [] => inr []
  | PyDict ev :: data =>
      match normalize now ev with
      | Raise e => inl e
      | Skip => normalize_all now data
      | Emit event =>
          match normalize_all now data with
          | inl e => inl e
          | inr events => inr (event :: events)
          end
      end
  | _ :: _ => inl AttributeError
  end.

(** The resync filter: the second [try] of [fetch_recent_gdacs_events].  The
    event is appended when its timestamp is not before [since], and also
    when the timestamp cannot be read back. *)
Definition is_recent (since : datetime) (event : Event) : bool :=
  match fromisoformat (replace_Z (ev_timestamp event)) with
  | None => true
  | Some event_dt =>
      match dt_ge (assume_utc event_dt) since with
      | inr b => b
      | inl _ => true
      end
  end.

Fixpoint normalize_recent (now since : datetime) (data : list pyval)
  : pyexc + list Event :=
  match data with
  | [] => inr []
  | PyDict ev :: data =>
      match normalize now ev with
      | Raise e => inl e
      | Skip => normalize_recent now since data
      | Emit event =>
          match normalize_recent now since data with
          | inl e => inl e
          | inr events =>
              inr (if is_recent since event then event :: events else events)
          end
      end
  | _ :: _ => inl AttributeError
  end.

(** ** The feed client *)

(** What [requests.get(...)], [raise_for_status()] and [resp.json()]
    deliver together: the decoded body, or any failure of the three. *)
Inductive response :=
| HttpFailure
| HttpJson (data : pyval).

(** ** Process state *)

(** The global [CACHE]. *)
Record Cache := {
  last_update : option string;
  events : list Event;
  consecutive_failures : Z;
}.

(** The module globals the modelled functions read or write, and the number
    of HTTP requests issued to the feed so far. *)
Record World := {
  CACHE : Cache;
  ALERTS : list pyval;
  LAST_ALERT : gmap string string;
  http_gets : nat;
}.

Definition set_CACHE (c : Cache) (w : World) : World :=
  {| CACHE := c; ALERTS := ALERTS w; LAST_ALERT := LAST_ALERT w;
     http_gets := http_gets w |}.

Definition set_LAST_ALERT (m : gmap string string) (w : World) : World :=
  {| CACHE := CACHE w; ALERTS := ALERTS w; LAST_ALERT := m;
     http_gets := http_gets w |}.

(** [requests.get(url, timeout=10)] and the decoding of its body: the feed
    answers the [n]-th request of the run with [upstream n]. *)
Definition http_get (upstream : nat → response) (w : World) : response * World :=
  (upstream (http_gets w),
   {| CACHE := CACHE w; ALERTS := ALERTS w; LAST_ALERT := LAST_ALERT w;
      http_gets := S (http_gets w) |}).

(** [if isinstance(data, dict): data = data.get("results", [])]. *)
Definition unwrap_results (data : pyval) : pyval :=
  match data with
  | PyDict d => dict_get_or d "results" (PyList [])
  | _ => data
  end.

(** The first [try] catches every failure of the request and returns the
    empty list; the loop over the decoded body is outside of it. *)
Definition fetch_gdacs_events (upstream : nat → response) (now : datetime)
    (w : World) : (pyexc + list Event) * World :=
  let '(resp, w) := http_get upstream w in
  match resp with
  | HttpFailure => (inr [], w)
  | HttpJson data =>
      (match py_iter (unwrap_results data) with
       | inl e => inl e
       | inr records => normalize_all now records
       end, w)
  end.

Definition fetch_recent_gdacs_events (upstream : nat → response)
    (now since : datetime) (w : World) : (pyexc + list Event) * World :=
  let '(resp, w) := http_get upstream w in
  match resp with
  | HttpFailure => (inr [], w)
  | HttpJson data =>
      (match py_iter (unwrap_results data) with
       | inl e => inl e
       | inr records => normalize_recent now since records
       end, w)
  end.

Definition fetch_disaster_data := fetch_gdacs_events.

(** ** The cache and resync manager *)

(** [{e.get("id") for e in CACHE.get("events", [])}]. *)
Definition ids_of (evs : list Event) : gset string :=
  list_to_set (ev_id <$> evs).

(** The merge loop:
    [for event in recent_events:
       if event.get("id") not in existing_ids: events.append(event)]. *)
Fixpoint merge_recent (existing_ids : gset string) (recent_events events : list Event)
  : list Event :=
  match recent_events with
  | [] => events
  | event :: recent_events =>
      if bool_decide (ev_id event ∉ existing_ids)
      then merge_recent existing_ids recent_events (events ++ [event])
      else merge_recent existing_ids recent_events events
  end.

(** The [except Exception] branch of [safe_update_events]. *)
Definition record_failure (w : World) : World :=
  set_CACHE {| last_update := last_update (CACHE w);
               events := events (CACHE w);
               consecutive_failures := consecutive_failures (CACHE w) + 1 |} w.

(** The last three assignments of the [try] branch. *)
Definition record_success (now : datetime) (evs : list Event) (w : World) : World :=
  set_CACHE {| last_update := Some (isoformat now);
               events := evs;
               consecutive_failures := 0 |} w.

Definition safe_update_events (upstream : nat → response) (now : datetime)
    (w : World) : World :=
  let '(fetched, w) := fetch_disaster_data upstream now w in
  match fetched with
  | inl _ => record_failure w
  | inr events0 =>
      if 1 <? consecutive_failures (CACHE w) then
        let since := dt_minus_hours now 24 in
        let '(fetched, w) := fetch_recent_gdacs_events upstream now since w in
        match fetched with
        | inl _ => record_failure w
        | inr recent_events =>
            let existing_ids := ids_of (events (CACHE w)) in
            record_success now (merge_recent existing_ids recent_events events0) w
        end
      else record_success now events0 w
  end.

(** ** The risk engine *)

Definition RISK_RADIUS : gmap string Z :=
  list_to_map
    [ ("Hurricane", 100); ("Flood", 50); ("Wildfire", 75);
      ("Tornado", 25); ("Earthquake", 60) ].

Definition categorize_risk (user_dist : float) (disaster_type : string)
  : option string :=
  let base_radius := default 50 (RISK_RADIUS !! disaster_type) in
  if SFleb user_dist (float_mul f_0_5 (Z2SF base_radius)) then Some "High"
  else if SFleb user_dist (Z2SF base_radius) then Some "Moderate"
  else if SFleb user_dist (float_mul f_1_5 (Z2SF base_radius)) then Some "Low"
  else None.

Definition classify_proximity (risk_level : string) : string :=
  if String.eqb risk_level "High" then "Immediate Danger"
  else if String.eqb risk_level "Moderate" then "Caution Zone"
  else if String.eqb risk_level "Low" then "Informational"
  else "Unknown".

(** ** The urgency classifier *)

(** An [int] as a division operand: the integer itself as mantissa, with
    exponent 0. *)
Definition int_operand (z : Z) : float :=
  match z with
  | Z0 => S754_zero false
  | Zpos m => S754_finite false m 0
  | Zneg m => S754_finite true m 0
  end.

(** [td.total_seconds()], which is [td_in_microseconds / 10**6]: the true
    division of two [int]s, the binary64 number nearest to their exact
    quotient; [OverflowError] when that is beyond the range of binary64. *)
Definition total_seconds (td : Z) : pyexc + float :=
  let q := SFdiv b64_prec b64_emax (int_operand td) (int_operand (10 ^ 6)) in
  if is_finite q then inr q else inl OverflowError.

(** [int(x)] on a float: truncation toward zero; [OverflowError] on an
    infinity and [ValueError] on a NaN. *)
Definition py_int (x : float) : pyexc + Z :=
  match x with
  | S754_zero _ => inr 0
  | S754_finite s m e => inr ((if s then -1 else 1) * Z.shiftl (Zpos m) e)
  | S754_infinity _ => inl OverflowError
  | S754_nan => inl ValueError
  end.

(** The body of the [try] of [classify_alert_level] from [time_diff] on:
    [hours_until = time_diff.total_seconds() / 3600.0] and the tests on
    it. *)
Definition classify_time_diff (time_diff : Z) : pyexc + (string * string) :=
  match total_seconds time_diff with
  | inl x => inl x
  | inr seconds =>
      let hours_until := float_div seconds (Z2SF 3600) in
      if SFltb (Z2SF 72) hours_until then
        match py_int (float_div hours_until (Z2SF 24)) with
        | inl x => inl x
        | inr days => inr ("Reminder", pretty days +:+ " days away")
        end
      else if SFltb (Z2SF 24) hours_until then
        match py_int (float_div hours_until (Z2SF 24)) with
        | inl x => inl x
        | inr days => inr ("Warning", pretty days +:+ " days away")
        end
      else if SFltb hours_until (Z2SF 0) then inr ("Emergency", "Past event")
      else
        match py_int hours_until with
        | inl x => inl x
        | inr hours => inr ("Emergency", "Within " +:+ pretty hours +:+ "h")
        end
  end.

(** [classify_alert_level]; its [except (ValueError, TypeError,
    AttributeError)] answers "Unknown time", any other exception leaves the
    function. *)
Definition classify_alert_level (now : datetime) (event_timestamp : pyval)
  : pyexc + (string * string) :=
  match event_timestamp with
  | PyStr s =>
      let s := if endswith_Z s then replace_Z s else s in
      match fromisoformat s with
      | None => inr ("Emergency", "Unknown time")
      | Some event_dt =>
          match
            match dt_sub (assume_utc event_dt) now with
            | inl x => inl x
            | inr time_diff => classify_time_diff time_diff
            end
          with
          | inl x =>
              if caught [ValueError; TypeError; AttributeError] x
              then inr ("Emergency", "Unknown time")
              else inl x
          | inr r => inr r
          end
      end
  | _ => inr ("Emergency", "Unknown time")
  end.

(** ** The alert throttle *)

Definition should_send_alert (now : datetime) (user_id : string) (min_hours : Z)
    (w : World) : bool * World :=
  let allow := (true, set_LAST_ALERT (<[user_id := isoformat now]> (LAST_ALERT w)) w) in
  match LAST_ALERT w !! user_id with
  | None => allow
  | Some last_str =>
      if String.eqb last_str "" then allow else
      match fromisoformat (replace_Z last_str) with
      | None => allow
      | Some last =>
          match dt_sub now (assume_utc last) with
          | inl _ => allow
          | inr elapsed =>
              if timedelta_hours min_hours <? elapsed then allow
              else (false, w)
          end
      end
  end.

(** The default of the parameter [min_hours]. *)
Definition default_min_hours : Z := 6.

(** ** The alert log endpoint *)

(** [l[start:]]. *)
Definition slice_from {A} (start : Z) (l : list A) : list A :=
  let n := Z.of_nat (length l) in
  let start := if start <? 0 then Z.max (start + n) 0 else Z.min start n in
  drop (Z.to_nat start) l.

Definition get_alerts (limit : Z) (w : World) : list pyval * World :=
  if limit <=? 0 then ([], w)
  else
    let limit := if 1000 <? limit then 1000 else limit in
    (slice_from (- limit) (ALERTS w), w).

(** The default of the query parameter [limit]. *)
Definition default_limit : Z := 20.

End Service.

(** ** Notions used to state the properties *)

(** The rational number a finite float denotes. *)
Definition SF2Q (x : float) : Q :=
  match x with
  | S754_finite s m e =>
      ((if s then inject_Z (-1) else inject_Z 1) * inject_Z (Zpos m) * Qpower (inject_Z 2) e)%Q
  | _ => inject_Z 0
  end.

(** A well-formed binary64 value: canonical mantissa, exponent in range. *)
Definition b64_valid (x : float) : bool := valid_binary b64_prec b64_emax x.

(** The base radius table as the specification lists it. *)
Definition spec_radius (disaster_type : string) : Z :=
  if String.eqb disaster_type "Hurricane" then 100
  else if String.eqb disaster_type "Flood" then 50
  else if String.eqb disaster_type "Wildfire" then 75
  else if String.eqb disaster_type "Tornado" then 25
  else if String.eqb disaster_type "Earthquake" then 60
  else 50.

(** The instant of time a [datetime] stands for, in microseconds of Unix
    time, a naive one being read as UTC (what [assume_utc] does). *)
Definition instant (dt : datetime) : Z :=
  wall_us dt - default 0 (utcoffset dt).

(** Severity of a tier: a larger number is a more severe tier. *)
Definition severity (tier : option string) : nat :=
  match tier with
  | Some t =>
      if String.eqb t "High" then 3
      else if String.eqb t "Moderate" then 2
      else if String.eqb t "Low" then 1
      else 0
  | None => 0
  end%nat.

(** The tiers as the specification words them, over the exact distance [d]
    and the base radius [R]. *)
Definition spec_tier (d : Q) (R : Z) : option string :=
  if Qle_bool d ((1 # 2) * inject_Z R) then Some "High"
  else if Qle_bool d (inject_Z R) then Some "Moderate"
  else if Qle_bool d ((3 # 2) * inject_Z R) then Some "Low"
  else None.

(** ** A sample runtime

    A runtime on which the model can be run.  It implements the library
    functions on canonical inputs (ISO-8601 strings as [isoformat] prints
    them, plain decimal literals of at most fifteen digits and the special
    floats, epoch values within the range of [datetime]) and answers with
    the error of an unreadable input elsewhere.  The theorems do not depend
    on it: it serves the examples and the concrete runs. *)
Module Sample.

Definition day_us : Z := 86400000000.

(** Days since 1970-01-01 of a date of the proleptic Gregorian calendar. *)
Definition days_from_civil (y m d : Z) : Z :=
  let y := if m <=? 2 then y - 1 else y in
  let era := y / 400 in
  let yoe := y - era * 400 in
  let doy := (153 * (if 2 <? m then m - 3 else m + 9) + 2) / 5 + d - 1 in
  let doe := yoe * 365 + yoe / 4 - yoe / 100 + doy in
  era * 146097 + doe - 719468.

Definition civil_from_days (z : Z) : Z * Z * Z :=
  let z := z + 719468 in
  let era := z / 146097 in
  let doe := z - era * 146097 in
  let yoe := (doe - doe / 1460 + doe / 36524 - doe / 146096) / 365 in
  let doy := doe - (365 * yoe + yoe / 4 - yoe / 100) in
  let mp := (5 * doy + 2) / 153 in
  let d := doy - (153 * mp + 2) / 5 + 1 in
  let m := if mp <? 10 then mp + 3 else mp - 9 in
  let y := yoe + era * 400 in
  (if m <=? 2 then y + 1 else y, m, d).

Definition days_in_month (y m : Z) : Z :=
  days_from_civil (if m =? 12 then y + 1 else y) (if m =? 12 then 1 else m + 1) 1
  - days_from_civil y m 1.

Definition digit_char (d : Z) : ascii := ascii_of_nat (48 + Z.to_nat d).

Fixpoint zpad_go (width : nat) (n : Z) (acc : string) : string :=
  match width with
  | O => acc
  | S width => zpad_go width (n / 10) (String (digit_char (n mod 10)) acc)
  end.

(** [n] in decimal, zero-padded to [width] digits. *)
Definition zpad (width : nat) (n : Z) : string := zpad_go width n "".

Definition format_fraction (us : Z) : string :=
  if us =? 0 then "" else "." +:+ zpad 6 us.

Definition format_offset (off : Z) : string :=
  let a := Z.abs off in
  let secs := a / 1000000 in
  (if off <? 0 then "-" else "+") +:+ zpad 2 (secs / 3600) +:+ ":"
  +:+ zpad 2 (secs / 60 mod 60)
  +:+ (if (secs mod 60 =? 0) && (a mod 1000000 =? 0) then ""
       else ":" +:+ zpad 2 (secs mod 60) +:+ format_fraction (a mod 1000000)).

Definition isoformat (dt : datetime) : string :=
  let '(y, m, d) := civil_from_days (wall_us dt / day_us) in
  let rest := wall_us dt mod day_us in
  let secs := rest / 1000000 in
  zpad 4 y +:+ "-" +:+ zpad 2 m +:+ "-" +:+ zpad 2 d +:+ "T"
  +:+ zpad 2 (secs / 3600) +:+ ":" +:+ zpad 2 (secs / 60 mod 60) +:+ ":"
  +:+ zpad 2 (secs mod 60) +:+ format_fraction (rest mod 1000000)
  +:+ match utcoffset dt with
      | None => ""
      | Some off => format_offset off
      end.

Definition digit_val (c : ascii) : option Z :=
  let n := nat_of_ascii c in
  if ((48 <=? n) && (n <=? 57))%nat then Some (Z.of_nat n - 48) else None.

(** Reads exactly [k] decimal digits. *)
Fixpoint read_digits (k : nat) (s : string) (acc : Z) : option (Z * string) :=
  match k, s with
  | O, _ => Some (acc, s)
  | S k, String c r => d ← digit_val c; read_digits k r (acc * 10 + d)
  | S _, EmptyString => None
  end.

Definition expect (c : ascii) (s : string) : option string :=
  match s with
  | String c' r => if Ascii.eqb c c' then Some r else None
  | EmptyString => None
  end.

Definition read_fraction (s : string) : option (Z * string) :=
  match s with
  | String "." r => read_digits 6 r 0
  | _ => Some (0, s)
  end.

Definition read_offset (s : string) : option (option Z) :=
  match s with
  | EmptyString => Some None
  | String c r =>
      sign ← (if Ascii.eqb c "+" then Some 1
              else if Ascii.eqb c "-" then Some (-1) else None);
      '(hh, r) ← read_digits 2 r 0;
      r ← expect ":" r;
      '(mm, r) ← read_digits 2 r 0;
      match r with
      | EmptyString =>
          if (hh <? 24) && (mm <? 60)
          then Some (Some (sign * ((hh * 3600 + mm * 60) * 1000000)))
          else None
      | _ => None
      end
  end.

(** Reads [YYYY-MM-DD], optionally followed by one separator character,
    [HH:MM:SS], an optional [.ffffff] and an optional [+HH:MM] or [-HH:MM]. *)
Definition fromisoformat (s : string) : option datetime :=
  '(y, r) ← read_digits 4 s 0;
  r ← expect "-" r;
  '(m, r) ← read_digits 2 r 0;
  r ← expect "-" r;
  '(d, r) ← read_digits 2 r 0;
  if negb ((1 <=? y) && (1 <=? m) && (m <=? 12) && (1 <=? d)
           && (d <=? days_in_month y m)) then None else
  let date_us := days_from_civil y m d * day_us in
  match r with
  | EmptyString => Some {| wall_us := date_us; utcoffset := None |}
  | String _ r =>
      '(hh, r) ← read_digits 2 r 0;
      r ← expect ":" r;
      '(mi, r) ← read_digits 2 r 0;
      r ← expect ":" r;
      '(ss, r) ← read_digits 2 r 0;
      '(us, r) ← read_fraction r;
      off ← read_offset r;
      if (hh <? 24) && (mi <? 60) && (ss <? 60)
      then Some {| wall_us := date_us + (hh * 3600 + mi * 60 + ss) * 1000000 + us;
                   utcoffset := off |}
      else None
  end.

(** The instants a [datetime] can hold: years 1 to 9999. *)
Definition min_us : Z := days_from_civil 1 1 1 * day_us.
Definition max_us : Z := days_from_civil 10000 1 1 * day_us - 1.

Definition datetime_of_us (us : Z) : pyexc + datetime :=
  if (min_us <=? us) && (us <=? max_us) then inr (utc us)
  else if 2 ^ 63 * 1000000 <=? Z.abs us then inl OverflowError
  else inl ValueError.

(** [num / den] rounded to the nearest integer, ties to even. *)
Definition round_half_even (num den : Z) : Z :=
  let q := num / den in
  let r := num mod den in
  match 2 * r ?= den with
  | Lt => q
  | Gt => q + 1
  | Eq => if Z.even q then q else q + 1
  end.

Definition fromtimestamp_utc (x : number) : pyexc + datetime :=
  match x with
  | NInt n => datetime_of_us (n * 1000000)
  | NFloat S754_nan => inl ValueError
  | NFloat (S754_infinity _) => inl OverflowError
  | NFloat (S754_zero _) => datetime_of_us 0
  | NFloat (S754_finite s m e) =>
      let sign := if s then -1 else 1 in
      datetime_of_us
        (if 0 <=? e then sign * (Zpos m * 2 ^ e * 1000000)
         else round_half_even (sign * (Zpos m * 1000000)) (2 ^ (- e)))
  end.

Fixpoint count_digits (s : string) : nat :=
  match s with
  | String c r => match digit_val c with Some _ => S (count_digits r) | None => O end
  | EmptyString => O
  end.

(** An unsigned literal [digits] or [digits.digits]. *)
Definition read_decimal (s : string) : option float :=
  let k := count_digits s in
  '(ip, r) ← read_digits k s 0;
  match r with
  | EmptyString =>
      if ((1 <=? k) && (k <=? 15))%nat then Some (Z2SF ip) else None
  | String "." r =>
      let j := count_digits r in
      '(fp, r') ← read_digits j r 0;
      match r' with
      | EmptyString =>
          if ((1 <=? k + j) && (k + j <=? 15))%nat
          then Some (float_div (Z2SF (ip * 10 ^ Z.of_nat j + fp)) (Z2SF (10 ^ Z.of_nat j)))
          else None
      | _ => None
      end
  | _ => None
  end.

Definition read_unsigned (s : string) : option float :=
  let l := lower s in
  if String.eqb l "inf" || String.eqb l "infinity" then Some (S754_infinity false)
  else if String.eqb l "nan" then Some S754_nan
  else read_decimal s.

Definition float_of_str (s : string) : option float :=
  match s with
  | String "-" r => SFopp <$> read_unsigned r
  | String "+" r => read_unsigned r
  | _ => read_unsigned s
  end.

(** [str] of the scalars; a float, a list or a dictionary is rendered by a
    placeholder. *)
Definition py_str (v : pyval) : string :=
  match v with
  | PyNone => "None"
  | PyBool b => if b then "True" else "False"
  | PyInt n => pretty n
  | PyStr s => s
  | PyFloat _ => "<float>"
  | PyList _ => "<list>"
  | PyDict _ => "<dict>"
  end.

Definition runtime : PyRuntime :=
  Build_PyRuntime float_of_str py_str fromisoformat isoformat fromtimestamp_utc.

End Sample.

Section Notions.
Context {rt : PyRuntime}.

(** The state after an allowed alert at the instant [t]. *)
Definition stamped (t : Z) (user_id : string) (w : World) : World :=
  set_LAST_ALERT (<[user_id := isoformat (utc t)]> (LAST_ALERT w)) w.

(** A coordinate value the normaliser cannot use: it is missing (or null),
    or [float] raises on it. *)
Definition axis_unusable (v : pyval) : Prop :=
  is_none v = true ∨ ∃ x, py_float v = inl x.

(** A coordinate value that reads as a finite real number. *)
Definition axis_finite_real (v : pyval) : Prop :=
  ∃ x, py_float v = inr x ∧ is_finite x = true.

(** The rejection rule as the specification words it: a record yields no
    event exactly when one of its axes does not read as a finite real. *)
Definition rejects_exactly_non_finite (now : datetime) (ev : gmap string pyval) : Prop :=
  (∀ e, normalize now ev ≠ Emit e) ↔
  (¬ axis_finite_real (probe_lat ev) ∨ ¬ axis_finite_real (probe_lon ev)).

(** Every timestamp alias of the record that is tried either yields a value
    or fails with an exception the loop handles. *)
Definition ts_handled (ev : gmap string pyval) : Prop :=
  ∀ ts_field x,
    ts_field ∈ ts_fields →
    truthy (dict_get ev ts_field) = true →
    parse_ts_value (dict_get ev ts_field) = inl x →
    caught [ValueError; TypeError; OSError] x = true.

(** No timestamp alias of the record yields a timestamp: each is missing or
    falsy, or fails to parse, or is neither a string nor a number. *)
Definition ts_unparsed (ev : gmap string pyval) : Prop :=
  ∀ ts_field iso,
    ts_field ∈ ts_fields →
    truthy (dict_get ev ts_field) = true →
    parse_ts_value (dict_get ev ts_field) ≠ inr (Some iso).

End Notions.

Definition us_per_hour : Z := 3600000000.
Definition us_per_day : Z := 86400000000.

(** ** Sample data for the concrete runs *)

Definition world0 : World :=
  {| CACHE := {| last_update := None; events := []; consecutive_failures := 0 |};
     ALERTS := []; LAST_ALERT := ∅; http_gets := 0 |}.

(** 2024-03-01T00:00:00 UTC, in microseconds of Unix time. *)
Definition t_2024_03_01 : Z := 1709251200000000.

(** A record whose latitude is the float infinity (the JSON number [1e999]
    decodes to it). *)
Definition record_infinite_latitude : gmap string pyval :=
  <["latitude" := PyFloat (S754_infinity false)]> (<["longitude" := PyInt 0]> ∅).

(** A record with the latitude ["nan"], a type in upper case, a date that
    does not parse and a numeric identifier. *)
Definition record_nan_latitude : gmap string pyval :=
  <["lat" := PyStr "nan"]>
    (<["lng" := PyStr "12.5"]>
       (<["title" := PyStr "FLOOD warning"]>
          (<["fromdate" := PyStr "yesterday"]> (<["id" := PyInt 77]> ∅)))).

(** A record without a type: the alias [eventtype] is the empty string. *)
Definition record_untyped : gmap string pyval :=
  <["latitude" := PyInt 40]>
    (<["longitude" := PyInt (-75)]>
       (<["eventtype" := PyStr ""]>
          (<["eventdate" := PyStr "2024-03-02T06:00:00Z"]> ∅))).

(** A feed record with an identifier, integral coordinates, a type and a
    date. *)
Definition feed_record (eventid : string) (lat lon : Z) (eventtype fromdate : string)
  : pyval :=
  PyDict (<["eventid" := PyStr eventid]>
            (<["latitude" := PyInt lat]>
               (<["longitude" := PyInt lon]>
                  (<["eventtype" := PyStr eventtype]>
                     (<["fromdate" := PyStr fromdate]> ∅))))).

Definition record_A : pyval := feed_record "A" 10 20 "Flood" "2024-03-01T06:00:00Z".
Definition record_B : pyval := feed_record "B" 30 40 "Wildfire" "2024-03-01T07:00:00Z".
Definition record_C : pyval := feed_record "C" 50 60 "Earthquake" "2024-03-01T08:00:00Z".

(** The events the three records normalise to. *)
Definition sample_event (id : string) (lat lon : Z) (ty ts : string) : Event :=
  {| ev_id := id; ev_type := ty; ev_coordinates := (Z2SF lat, Z2SF lon);
     ev_severity := PyStr "unknown"; ev_timestamp := ts |}.

Definition event_A : Event := sample_event "A" 10 20 "Flood" "2024-03-01T06:00:00+00:00".
Definition event_B : Event := sample_event "B" 30 40 "Wildfire" "2024-03-01T07:00:00+00:00".
Definition event_C : Event := sample_event "C" 50 60 "Earthquake" "2024-03-01T08:00:00+00:00".

(** Two events without an identifier. *)
Definition event_anon1 : Event := sample_event "" 1 1 "Flood" "2024-03-01T06:00:00+00:00".
Definition event_anon2 : Event := sample_event "" 2 2 "Flood" "2024-03-01T07:00:00+00:00".

(** A degraded process with an empty cache: two failures on record. *)
Definition world_degraded : World :=
  {| CACHE := {| last_update := None; events := []; consecutive_failures := 2 |};
     ALERTS := []; LAST_ALERT := ∅; http_gets := 0 |}.

(** A live process serving one cached event. *)
Definition world_live : World :=
  {| CACHE := {| last_update := Some "2024-03-01T00:00:00+00:00";
                 events := [event_A]; consecutive_failures := 0 |};
     ALERTS := []; LAST_ALERT := ∅; http_gets := 0 |}.

(** The feed answers the snapshot request with A and B and the resync
    request with A and C. *)
Definition feed_AB_then_AC (n : nat) : response :=
  match n with
  | O => HttpJson (PyList [record_A; record_B])
  | _ => HttpJson (PyDict (<["results" := PyList [record_A; record_C]]> ∅))
  end.

(** The feed is unreachable. *)
Definition feed_down (n : nat) : response := HttpFailure.

(** The specification's rule for empty identifiers: every resync candidate
    without an identifier is appended. *)
Definition empty_id_always_appended (cached recent_events events : list Event) : Prop :=
  ∀ event, event ∈ recent_events → ev_id event = "" →
    event ∈ merge_recent (ids_of cached) recent_events events.

(** 2024-03-01T12:00:00 UTC. *)
Definition t_noon : Z := t_2024_03_01 + 12 * us_per_hour.

(** [n] ticks of the fetch job, all at the instant [now]. *)
Fixpoint ticks `{rt : PyRuntime} (n : nat) (upstream : nat → response)
    (now : datetime) (w : World) : World :=
  match n with
  | O => w
  | S n => ticks n upstream now (safe_update_events upstream now w)
  end.

(** ** Auxiliary definitions of the proofs *)

(** The table walked as a function. *)
Definition mentions_anyb (title : string) (kws : list string) : bool :=
  existsb (λ kw, contains kw (lower title)) kws.

Fixpoint first_matchb (title : string) (rows : list (list string * string)) : string :=
  match rows with
  | [] => title
  | (kws, ty) :: rows => if mentions_anyb title kws then ty else first_matchb title rows
  end.

(** A finite float in units of [2^-1074], the weight of the last bit of a
    subnormal number. *)
Definition SF2Z (x : float) : Z :=
  match x with
  | S754_finite s m e => (if s then -1 else 1) * (Zpos m * 2 ^ (e + 1074))
  | _ => 0
  end.







(** * The rest of the service *)

(** ** The subscriber registry *)

(** The global [USERS]: a dictionary from user ids to user dictionaries,
    in insertion order (the order in which [USERS.items()] yields them). *)
Definition Users := list (string * gmap string pyval).

(** [USERS.get(user_id)]. *)
Fixpoint users_get (USERS : Users) (user_id : string) : option (gmap string pyval) :=
  match USERS with
  | [] => None
  | (k, user) :: USERS =>
      if String.eqb k user_id then Some user else users_get USERS user_id
  end.

(** [USERS[user_id] = user]: an existing key keeps its place, a new one goes
    to the end. *)
Fixpoint users_set (USERS : Users) (user_id : string) (user : gmap string pyval)
  : Users :=
  match USERS with
  | [] => [(user_id, user)]
  | (k, u) :: USERS =>
      if String.eqb k user_id then (k, user) :: USERS
      else (k, u) :: users_set USERS user_id user
  end.

Section Endpoints.
Context {rt : PyRuntime}.

(** ** Geolocation by IP address *)

(** The addresses for which no lookup is made. *)
Definition is_local_address (ip : string) : bool :=
  String.eqb ip "127.0.0.1" || String.eqb ip "localhost" || String.eqb ip "::1"
  || String.prefix "192.168." ip || String.prefix "10." ip.

(** [geo ip] is what the lookup service answers for [ip]; [n] counts the
    lookups issued.  Every exception inside the [try] ends in [return None]. *)
Definition get_user_location_from_ip (geo : string → response) (ip : string)
    (n : nat) : option (float * float) * nat :=
  if is_local_address ip then (None, n) else
  (match geo ip with
   | HttpFailure => None
   | HttpJson (PyDict data) =>
       let lat := dict_get data "latitude" in
       let lon := dict_get data "longitude" in
       if negb (is_none lat) && negb (is_none lon) then
         match py_float lat, py_float lon with
         | inr lat, inr lon => Some (lat, lon)
         | _, _ => None
         end
       else None
   | HttpJson _ => None
   end, S n).

(** ** The subscription endpoint *)

Record SubscribeRequest := {
  sub_user_id : string;
  sub_name : string;
  sub_lat : option float;
  sub_lon : option float;
}.

(** The literals [39.8283] and [-98.5795]. *)
Definition f_default_lat : float := float_div (Z2SF 398283) (Z2SF 10000).
Definition f_default_lon : float := SFopp (float_div (Z2SF 985795) (Z2SF 10000)).

(** The coordinates [subscribe_user] settles on, and the lookups counted. *)
Definition resolve_coordinates (geo : string → response) (req : SubscribeRequest)
    (client_ip : option string) (n : nat) : (float * float) * nat :=
  match sub_lat req, sub_lon req with
  | Some lat, Some lon => ((lat, lon), n)
  | lat, lon =>
      let '(location, n) :=
        match client_ip with
        | Some ip =>
            if negb (String.eqb ip "") then get_user_location_from_ip geo ip n
            else (None, n)
        | None => (None, n)
        end in
      match location with
      | Some (loc_lat, loc_lon) => ((default loc_lat lat, default loc_lon lon), n)
      | None => ((default f_default_lat lat, default f_default_lon lon), n)
      end
  end.

(** The dictionary stored for a subscriber. *)
Definition user_record (user_id name : string) (lat lon : float) (subscribed_on : string)
  : gmap string pyval :=
  <["user_id" := PyStr user_id]>
    (<["name" := PyStr name]>
       (<["lat" := PyFloat lat]>
          (<["lon" := PyFloat lon]>
             (<["subscribed_on" := PyStr subscribed_on]> ∅)))).

(** [subscribe_user]: the stored user (the ["user"] of the answer), the new
    registry and the lookups counted. *)
Definition subscribe_user (geo : string → response) (now : datetime)
    (req : SubscribeRequest) (client_ip : option string) (USERS : Users) (n : nat)
  : gmap string pyval * Users * nat :=
  let '((lat, lon), n) := resolve_coordinates geo req client_ip n in
  let user := user_record (sub_user_id req) (sub_name req) lat lon (isoformat now) in
  (user, users_set USERS (sub_user_id req) user, n).

(** ** The alert history endpoint *)

(** [v == s] for a string [s]. *)
Definition py_eq_str (v : pyval) (s : string) : bool :=
  match v with
  | PyStr s' => String.eqb s' s
  | _ => false
  end.

(** [[alert for alert in ALERTS if alert.get("user_id") == user_id]];
    [alert.get] on an entry that is no dictionary raises. *)
Fixpoint alerts_of (user_id : string) (alerts : list pyval) : pyexc + list pyval :=
  match alerts with
  | [] => inr []
  | PyDict alert :: alerts =>
      match alerts_of user_id alerts with
      | inl e => inl e
      | inr filtered =>
          inr (if py_eq_str (dict_get alert "user_id") user_id
               then PyDict alert :: filtered else filtered)
      end
  | _ :: _ => inl AttributeError
  end.

(** The answer of [get_alert_history]. *)
Record History := {
  hist_user_id : option string;
  hist_count : nat;
  hist_alerts : list pyval;
}.

Definition get_alert_history (user_id : option string) (w : World) : pyexc + History :=
  match user_id with
  | Some uid =>
      if negb (String.eqb uid "") then
        match alerts_of uid (ALERTS w) with
        | inl e => inl e
        | inr filtered =>
            inr {| hist_user_id := Some uid; hist_count := length filtered;
                   hist_alerts := filtered |}
        end
      else inr {| hist_user_id := None; hist_count := length (ALERTS w);
                  hist_alerts := ALERTS w |}
  | None => inr {| hist_user_id := None; hist_count := length (ALERTS w);
                   hist_alerts := ALERTS w |}
  end.

(** ** The manual alert endpoint *)

Record PushNotificationRequest := {
  push_user_id : string;
  push_message : string;
}.

Definition set_ALERTS (alerts : list pyval) (w : World) : World :=
  {| CACHE := CACHE w; ALERTS := alerts; LAST_ALERT := LAST_ALERT w;
     http_gets := http_gets w |}.

(** The [alert_payload] of [push_notification]. *)
Definition push_payload (now : datetime) (req : PushNotificationRequest)
    (user : gmap string pyval) : pyval :=
  PyDict
    (<["user_id" := PyStr (push_user_id req)]>
    (<["user_name" := dict_get_or user "name" (PyStr (push_user_id req))]>
    (<["disaster_type" := PyStr "Manual"]>
    (<["risk_level" := PyStr "Unknown"]>
    (<["alert_level" := PyStr "Warning"]>
    (<["proximity_level" := PyStr (classify_proximity "Unknown")]>
    (<["coords" := PyList [dict_get_or user "lat" (PyInt 0);
                           dict_get_or user "lon" (PyInt 0)]]>
    (<["severity" := PyStr "unknown"]>
    (<["event_id" := PyStr "manual"]>
    (<["message" := PyStr (push_message req)]>
    (<["timestamp" := PyStr (isoformat now)]> ∅))))))))))).

(** [push_notification]: the status of the [HTTPException], or the alert of
    the answer. *)
Definition push_notification (now : datetime) (req : PushNotificationRequest)
    (USERS : Users) (w : World) : (Z + pyval) * World :=
  match users_get USERS (push_user_id req) with
  | None => (inl 404, w)
  | Some user =>
      if negb (truthy (PyDict user)) then (inl 404, w)
      else
        let alert_payload := push_payload now req user in
        (inr alert_payload, set_ALERTS (ALERTS w ++ [alert_payload]) w)
  end.

(** ** The health endpoint *)

Record Health := {
  health_last_update : option string;
  health_user_count : nat;
  health_alerts_count : nat;
  health_cached_events : nat;
  health_offline_mode : bool;
}.

Definition health_check (USERS : Users) (w : World) : Health :=
  {| health_last_update := last_update (CACHE w);
     health_user_count := length USERS;
     health_alerts_count := length (ALERTS w);
     health_cached_events := length (events (CACHE w));
     health_offline_mode := 1 <? consecutive_failures (CACHE w) |}.

(** ** The alert dispatcher *)

(** The [payload] of [send_alert], [None] when building it raises:
    [classify_alert_level] can let an [OverflowError] through, and
    [user["user_id"]] and [user["name"]] raise [KeyError] when the user
    dictionary lacks the key. *)
Definition alert_payload (now : datetime) (user : gmap string pyval) (event : Event)
    (risk_level : string) : option pyval :=
  '(alert_level, time_desc) ←
    match classify_alert_level now (PyStr (ev_timestamp event)) with
    | inl _ => None
    | inr levels => Some levels
    end;
  let proximity_label := classify_proximity risk_level in
  uid ← user !! "user_id";
  name ← user !! "name";
  Some (PyDict
    (<["user_id" := uid]>
    (<["user_name" := name]>
    (<["disaster_type" := PyStr (ev_type event)]>
    (<["risk_level" := PyStr risk_level]>
    (<["alert_level" := PyStr alert_level]>
    (<["proximity_level" := PyStr proximity_label]>
    (<["coords" := PyList [PyFloat (ev_coordinates event).1;
                           PyFloat (ev_coordinates event).2]]>
    (<["severity" := ev_severity event]>
    (<["event_id" := PyStr (ev_id event)]>
    (<["timestamp" := PyStr (isoformat now)]> ∅))))))))))).

(** [send_alert]: [None] when building the payload raises, which happens
    before the log is touched. *)
Definition send_alert (now : datetime) (user : gmap string pyval) (event : Event)
    (risk_level : string) (w : World) : option World :=
  payload ← alert_payload now user event risk_level;
  Some (set_ALERTS (ALERTS w ++ [payload]) w).

(** [calculate_distance_miles]: the geodesic distance of the [geopy]
    library, [None] when it raises. *)
Variable distance_miles : pyval * pyval → float * float → option float.

(** The body of the inner loop of [process_events_for_users] for one event
    and one user; whatever it raises is caught by its [except Exception]
    and the loop goes on with the state reached. *)
Definition process_pair (now : datetime) (event : Event) (user_id : string)
    (user : gmap string pyval) (w : World) : World :=
  let user_lat := dict_get user "lat" in
  let user_lon := dict_get user "lon" in
  if is_none user_lat || is_none user_lon then w else
  match py_float user_lat, py_float user_lon with
  | inr _, inr _ =>
      match distance_miles (user_lat, user_lon) (ev_coordinates event) with
      | None => w
      | Some dist =>
          match categorize_risk dist (ev_type event) with
          | None => w
          | Some risk =>
              let '(allowed, w) := should_send_alert now user_id default_min_hours w in
              if allowed then default w (send_alert now user event risk w) else w
          end
      end
  | _, _ => w
  end.

(** [for user_id, user in USERS.items(): ...]. *)
Fixpoint process_users (now : datetime) (event : Event) (USERS : Users) (w : World)
  : World :=
  match USERS with
  | [] => w
  | (user_id, user) :: USERS =>
      process_users now event USERS (process_pair now event user_id user w)
  end.

(** [for event in CACHE["events"]: ...] over the events [evs]. *)
Fixpoint process_events (now : datetime) (evs : list Event) (USERS : Users) (w : World)
  : World :=
  match evs with
  | [] => w
  | event :: evs => process_events now evs USERS (process_users now event USERS w)
  end.

Definition process_events_for_users (now : datetime) (USERS : Users) (w : World)
  : World :=
  match events (CACHE w) with
  | [] => w
  | evs => process_events now evs USERS w
  end.

(** [manual_process]: a fetch tick, a dispatch pass, and the last ten
    alerts. *)
Definition manual_process (upstream : nat → response) (now : datetime)
    (USERS : Users) (w : World) : list pyval * World :=
  let w := safe_update_events upstream now w in
  let w := process_events_for_users now USERS w in
  (slice_from (-10) (ALERTS w), w).

End Endpoints.

(** ** Loading the persisted state *)

(** A file of the storage directory: absent, present but not readable as
    JSON, or holding a JSON value. *)
Inductive file := Missing | Unreadable | Holds (v : pyval).

(** [len(v)], [None] when it raises. *)
Definition py_len (v : pyval) : option nat :=
  match v with
  | PyStr s => Some (String.length s)
  | PyList xs => Some (length xs)
  | PyDict d => Some (size d)
  | PyNone | PyBool _ | PyInt _ | PyFloat _ => None
  end.

(** [k in v] for a string [k], [None] when it raises. *)
Definition py_in_str (k : string) (v : pyval) : option bool :=
  match v with
  | PyDict d => Some (bool_decide (is_Some (d !! k)))
  | PyList xs => Some (existsb (λ x, py_eq_str x k) xs)
  | PyStr s => Some (contains k s)
  | PyNone | PyBool _ | PyInt _ | PyFloat _ => None
  end.

(** The initial value of [CACHE], also its value after a failed load. *)
Definition default_cache : pyval :=
  PyDict (<["last_update" := PyNone]>
            (<["events" := PyList []]>
               (<["consecutive_failures" := PyInt 0]> ∅))).

(** Each block of [load_data]: the global after the block, given the file
    and the global before.  Any exception inside the [try] resets the global
    to its default. *)
Definition load_users (f : file) (USERS : pyval) : pyval :=
  match f with
  | Missing => USERS
  | Unreadable => PyDict ∅
  | Holds v => match py_len v with Some _ => v | None => PyDict ∅ end
  end.

Definition load_alerts (f : file) (ALERTS : pyval) : pyval :=
  match f with
  | Missing => ALERTS
  | Unreadable => PyList []
  | Holds v => match py_len v with Some _ => v | None => PyList [] end
  end.

Definition load_last_alert (f : file) (LAST_ALERT : pyval) : pyval :=
  match f with
  | Missing => LAST_ALERT
  | Unreadable => PyDict ∅
  | Holds v => v
  end.

Definition load_cache (f : file) (CACHE : pyval) : pyval :=
  match f with
  | Missing => CACHE
  | Unreadable => default_cache
  | Holds v =>
      match py_in_str "consecutive_failures" v, v with
      | Some present, PyDict d =>
          let d := if present then d else <["consecutive_failures" := PyInt 0]> d in
          match py_len (dict_get_or d "events" (PyList [])) with
          | Some _ => PyDict d
          | None => default_cache
          end
      | _, _ => default_cache
      end
  end.

(** ** Notions used to state the further properties *)

Section Notions2.
Context {rt : PyRuntime}.

(** An alias the timestamp loop moves past: it is missing or falsy, or a
    string [fromisoformat] rejects. *)
Definition alias_passed (ev : gmap string pyval) (ts_field : string) : Prop :=
  truthy (dict_get ev ts_field) = false ∨
  ∃ s, dict_get ev ts_field = PyStr s ∧ fromisoformat (replace_Z s) = None.

(** The decision of the throttle at the instant [t], given what is stored
    for the user. *)
Definition throttle_allows (t min_hours : Z) (stored : option string) : bool :=
  match stored with
  | None => true
  | Some last_str =>
      if String.eqb last_str "" then true else
      match fromisoformat (replace_Z last_str) with
      | None => true
      | Some last => timedelta_hours min_hours <? t - instant last
      end
  end.

End Notions2.

(** A process in which the user [u1] was last alerted on 2024-02-01. *)
Definition world_alerted : World :=
  {| CACHE := {| last_update := None; events := []; consecutive_failures := 0 |};
     ALERTS := []; LAST_ALERT := {["u1" := "2024-02-01T00:00:00+00:00"]};
     http_gets := 0 |}.

(** An entry of the alert log is a dictionary. *)
Definition is_dict (v : pyval) : bool :=
  match v with PyDict _ => true | _ => false end.

(** An entry of the alert log recorded for the user [user_id]. *)
Definition alert_of_user (user_id : string) (alert : pyval) : bool :=
  match alert with
  | PyDict d => py_eq_str (dict_get d "user_id") user_id
  | _ => false
  end.

Section Notions3.
Context {rt : PyRuntime}.

(** What every alert of a dispatch pass at the instant [t] over the events
    [evs] looks like. *)
Definition dispatched_alert (t : Z) (evs : list Event) (alert : pyval) : Prop :=
  ∃ d event risk,
    alert = PyDict d ∧ event ∈ evs ∧
    risk ∈ ["High"; "Moderate"; "Low"] ∧
    d !! "risk_level" = Some (PyStr risk) ∧
    d !! "proximity_level" = Some (PyStr (classify_proximity risk)) ∧
    classify_proximity risk ≠ "Unknown" ∧
    d !! "event_id" = Some (PyStr (ev_id event)) ∧
    d !! "disaster_type" = Some (PyStr (ev_type event)) ∧
    d !! "timestamp" = Some (PyStr (isoformat (utc t))).

(** The subscribers of [keys] the throttle would allow at the instant [t]. *)
Definition due (t : Z) (keys : list string) (last_alert : gmap string string)
  : list string :=
  List.filter (λ k, throttle_allows t default_min_hours (last_alert !! k)) keys.

(** The state reached from [w] by a part of a pass at [t] over events of
    [evs] and subscribers of [keys]. *)
Definition pass_from (t : Z) (evs : list Event) (keys : list string) (w w' : World)
  : Prop :=
  CACHE w' = CACHE w ∧
  http_gets w' = http_gets w ∧
  (∃ new, ALERTS w' = (ALERTS w ++ new)%list ∧ Forall (dispatched_alert t evs) new) ∧
  (∀ k, k ∉ keys → LAST_ALERT w' !! k = LAST_ALERT w !! k) ∧
  (∀ k, LAST_ALERT w' !! k = LAST_ALERT w !! k ∨
        LAST_ALERT w' !! k = Some (isoformat (utc t))).

(** The alerts logged plus the subscribers still due. *)
Definition budget (t : Z) (keys : list string) (w : World) : nat :=
  (length (ALERTS w) + length (due t keys (LAST_ALERT w)))%nat.

(** The same for one user id: the alerts logged for it, plus one while it
    is a subscriber still due. *)
Definition own_budget (t : Z) (keys : list string) (user_id : string) (w : World)
  : nat :=
  (length (List.filter (alert_of_user user_id) (ALERTS w)) +
   if bool_decide (user_id ∈ keys) &&
      throttle_allows t default_min_hours (LAST_ALERT w !! user_id)
   then 1 else 0)%nat.

End Notions3.

(** Every subscriber's dictionary carries the id it is stored under, as
    [subscribe_user] stores it. *)
Definition stored_under_own_id (USERS : Users) : Prop :=
  Forall (λ entry : string * gmap string pyval,
            entry.2 !! "user_id" = Some (PyStr entry.1)) USERS.

(** A cache global the service can work with: a dictionary that has the
    failure counter and whose [events] entry, when present, has a length. *)
Definition cache_wellformed (c : pyval) : Prop :=
  ∃ d, c = PyDict d ∧ is_Some (d !! "consecutive_failures") ∧
       is_Some (py_len (dict_get_or d "events" (PyList []))).

(** A record whose first timestamp alias does not parse and whose second
    does. *)
Definition record_two_dates : gmap string pyval :=
  <["fromdate" := PyStr "yesterday"]>
    (<["eventdate" := PyStr "2024-03-02T06:00:00Z"]>
       (<["date" := PyStr "2024-01-01T00:00:00Z"]> ∅)).

(** Two subscribers with coordinates, and a distance that puts everyone ten
    miles from everything. *)
Definition sample_user (user_id : string) : gmap string pyval :=
  <["user_id" := PyStr user_id]>
    (<["name" := PyStr "Ann"]>
       (<["lat" := PyInt 10]> (<["lon" := PyInt 20]> ∅))).

Definition sample_users : Users :=
  [("u1", sample_user "u1"); ("u2", sample_user "u2")].

Definition ten_miles (a : pyval * pyval) (b : float * float) : option float :=
  Some (Z2SF 10).

(** A live process serving two cached events, in which [u1] was alerted an
    hour before noon. *)
Definition world_two_events : World :=
  {| CACHE := {| last_update := Some "2024-03-01T00:00:00+00:00";
                 events := [event_A; event_B]; consecutive_failures := 0 |};
     ALERTS := [];
     LAST_ALERT := {["u1" := "2024-03-01T11:00:00+00:00"]};
     http_gets := 0 |}.

(** * Part II: properties *)

(** ** Strings *)

Lemma prefix_spec (a b : string) :
  String.prefix a b = true ↔ ∃ post, b = a +:+ post.
Proof.
  revert b. induction a as [|x a IH]; intros b.
  - split; [intros _; now exists b | now destruct b].
  - destruct b as [|y b]; simpl.
    + split; [discriminate | intros [post H]; discriminate].
    + destruct (ascii_dec x y) as [->|Hne].
      * rewrite IH. split; intros [post H]; exists post.
        -- now rewrite H.
        -- simpl in H. now inversion H.
      * split; [discriminate|]. intros [post H]. simpl in H. inversion H. congruence.
Qed.

Lemma contains_spec (needle hay : string) :
  contains needle hay = true ↔ ∃ pre post, hay = pre +:+ needle +:+ post.
Proof.
  induction hay as [|c hay IH].
  - change (contains needle "") with (String.prefix needle "" || false).
    rewrite orb_false_r, prefix_spec. split.
    + intros [post H]. now exists "", post.
    + intros [pre [post H]]. destruct pre; [now exists post | discriminate].
  - change (contains needle (String c hay))
      with (String.prefix needle (String c hay) || contains needle hay).
    rewrite orb_true_iff, prefix_spec, IH. split.
    + intros [[post H] | [pre [post H]]].
      * now exists "", post.
      * exists (String c pre), post. simpl. now rewrite H.
    + intros [pre [post H]]. destruct pre as [|x pre]; simpl in H.
      * left. now exists post.
      * right. inversion H. now exists pre, post.
Qed.

Lemma lower_app (a b : string) : lower (a +:+ b) = lower a +:+ lower b.
Proof. induction a as [|x a IH]; simpl; [reflexivity | now rewrite IH]. Qed.

Lemma lower_app_inv (t a b : string) :
  lower t = a +:+ b → ∃ t1 t2, t = t1 +:+ t2 ∧ lower t1 = a ∧ lower t2 = b.
Proof.
  revert t. induction a as [|x a IH]; intros t H.
  - now exists "", t.
  - destruct t as [|y t]; [discriminate|]. simpl in H. inversion H as [[Hx Ht]].
    destruct (IH _ Ht) as (t1 & t2 & -> & <- & <-).
    now exists (String y t1), t2.
Qed.

(** Letter case as the specification means it and as [lower] computes
    it. *)
Lemma letter_cases_lower (a b : ascii) :
  (a, b) ∈ letter_cases → ascii_lower a = b ∧ ascii_lower b = b.
Proof.
  cbv [letter_cases upper_case lower_case combine list_ascii_of_string].
  intros H.
  repeat (apply elem_of_cons in H as [[= -> ->]|H]; [split; reflexivity|]).
  now apply elem_of_nil in H.
Qed.

Lemma same_letter_lower (a b : ascii) :
  same_letter a b → ascii_lower a = ascii_lower b.
Proof.
  intros [->|[H|H]]; [reflexivity| |]; apply letter_cases_lower in H as [H1 H2]; congruence.
Qed.

Lemma same_letter_of_lower (a : ascii) : same_letter a (ascii_lower a).
Proof.
  destruct a as [[] [] [] [] [] [] [] []];
    first [ left; reflexivity
          | right; left;
            cbv [letter_cases upper_case lower_case combine list_ascii_of_string];
            cbn; solve [repeat constructor] ].
Qed.

Lemma same_up_to_case_lower (u v : string) :
  same_up_to_case u v → lower u = lower v.
Proof.
  induction 1 as [|a b u v Hab _ IH]; [reflexivity|].
  cbn [lower]. now rewrite (same_letter_lower a b Hab), IH.
Qed.

Lemma same_up_to_case_of_lower (u : string) : same_up_to_case u (lower u).
Proof.
  induction u as [|a u IH]; cbn [lower]; constructor;
    [apply same_letter_of_lower|exact IH].
Qed.

Lemma same_up_to_case_sym (u v : string) :
  same_up_to_case u v → same_up_to_case v u.
Proof.
  induction 1 as [|a b u v Hab _ IH]; constructor; [|exact IH].
  destruct Hab as [->|[H|H]]; [now left|right; now right|right; now left].
Qed.

(** A keyword in lower case is matched up to letter case exactly by the
    strings that [lower] maps to it. *)
Lemma same_up_to_case_keyword (w kw : string) :
  lower kw = kw → (same_up_to_case w kw ↔ lower w = kw).
Proof.
  intros Hkw. split.
  - intros H. apply same_up_to_case_lower in H. congruence.
  - intros <-. apply same_up_to_case_of_lower.
Qed.

Lemma mentions_contains (title kw : string) :
  lower kw = kw →
  (mentions title kw ↔ contains kw (lower title) = true).
Proof.
  intros Hkw. rewrite contains_spec. split.
  - intros (pre & w & post & -> & Hw).
    apply (same_up_to_case_keyword w kw Hkw) in Hw as <-.
    exists (lower pre), (lower post). now rewrite !lower_app.
  - intros (pre & post & H).
    destruct (lower_app_inv _ _ _ H) as (t1 & t23 & -> & <- & H23).
    destruct (lower_app_inv _ _ _ H23) as (t2 & t3 & -> & Ht2 & <-).
    exists t1, t2, t3. split; [reflexivity|].
    now apply (same_up_to_case_keyword t2 kw Hkw).
Qed.

Lemma mentions_any_b (title : string) (kws : list string) :
  Forall (λ kw, lower kw = kw) kws →
  (mentions_any title kws ↔ mentions_anyb title kws = true).
Proof.
  intros Hkws. unfold mentions_any, mentions_anyb.
  rewrite Exists_exists, existsb_exists. rewrite Forall_forall in Hkws.
  split; intros (kw & Hin & H); exists kw.
  - split; [now apply list_elem_of_In|]. apply mentions_contains; auto.
  - apply list_elem_of_In in Hin. split; [exact Hin|].
    apply mentions_contains; auto.
Qed.

Lemma first_match_b (title : string) rows r :
  Forall (λ row, Forall (λ kw, lower kw = kw) row.1) rows →
  (first_match title rows r ↔ first_matchb title rows = r).
Proof.
  intros Hrows. split.
  - induction 1 as [|kws ty rows H|kws ty rows r H _ IH]; simpl.
    + reflexivity.
    + apply Forall_cons in Hrows as [Hkws _].
      apply (mentions_any_b title kws Hkws) in H. now rewrite H.
    + apply Forall_cons in Hrows as [Hkws Hrows].
      rewrite (mentions_any_b title kws Hkws) in H.
      destruct (mentions_anyb title kws); [congruence|auto].
  - revert r. induction rows as [|[kws ty] rows IH]; simpl; intros r <-.
    + constructor.
    + apply Forall_cons in Hrows as [Hkws Hrows].
      destruct (mentions_anyb title kws) eqn:E.
      * apply fm_here. now apply (mentions_any_b title kws Hkws).
      * apply fm_later; [|now apply IH].
        rewrite (mentions_any_b title kws Hkws), E. discriminate.
Qed.

Lemma type_table_lower_case :
  Forall (λ row, Forall (λ kw, lower kw = kw) row.1) type_table.
Proof. unfold type_table. repeat constructor. Qed.

Lemma map_gdacs_type_table (title : string) :
  map_gdacs_type title = first_matchb title type_table.
Proof.
  unfold map_gdacs_type, type_table; simpl. now rewrite !orb_false_r, !orb_assoc.
Qed.

Lemma first_matchb_lower (t t' : string) rows :
  lower t = lower t' →
  first_matchb t rows = first_matchb t' rows ∨
  (first_matchb t rows = t ∧ first_matchb t' rows = t').
Proof.
  intros H. induction rows as [|[kws ty] rows IH]; simpl.
  - now right.
  - unfold mentions_anyb. rewrite H. now destruct (existsb _ kws); [left|].
Qed.

(** C5. [map_gdacs_type] is the priority-ordered, case-insensitive substring
    table of the specification: its result is the entry of the first row of
    [type_table] (fire/wildfire, then storm/cyclone/hurricane/typhoon, then
    flood, volcano, earthquake) with a keyword that some substring of the
    title equals up to letter case, and the title itself, unchanged, when no
    row applies; two titles equal up to letter case are decided by the same
    row; a title mentioning both "fire" and "flood", in any letter case, maps
    to Wildfire. *)
Theorem map_gdacs_type_priority_table (title : string) :
  (∀ r, first_match title type_table r ↔ map_gdacs_type title = r) ∧
  (∀ title', same_up_to_case title title' →
     map_gdacs_type title = map_gdacs_type title' ∨
     (map_gdacs_type title = title ∧ map_gdacs_type title' = title')) ∧
  (mentions title "fire" → mentions title "flood" →
     map_gdacs_type title = "Wildfire").
Proof.
  split; [|split].
  - intros r. rewrite (first_match_b _ _ _ type_table_lower_case).
    now rewrite map_gdacs_type_table.
  - intros title' H. rewrite !map_gdacs_type_table.
    apply first_matchb_lower. now apply same_up_to_case_lower.
  - intros Hfire _. apply mentions_contains in Hfire; [|reflexivity].
    unfold map_gdacs_type. now rewrite Hfire.
Qed.

(** A title in upper case with both keywords: the specification's table
    gives Wildfire, and so does the code. *)
Lemma map_gdacs_type_priority_table_witness :
  mentions "Flash FLOOD, Forest FIRE" "fire" ∧
  mentions "Flash FLOOD, Forest FIRE" "flood" ∧
  map_gdacs_type "Flash FLOOD, Forest FIRE" = "Wildfire".
Proof.
  assert (Hcase : ∀ a b, (a, b) ∈ letter_cases → same_letter a b)
    by (intros a b H; right; now left).
  assert (Hfire : mentions "Flash FLOOD, Forest FIRE" "fire").
  { exists "Flash FLOOD, Forest ", "FIRE", "". split; [reflexivity|].
    repeat (constructor;
            [apply Hcase;
             cbv [letter_cases upper_case lower_case combine list_ascii_of_string];
             solve [repeat constructor]|]).
    constructor. }
  assert (Hflood : mentions "Flash FLOOD, Forest FIRE" "flood").
  { exists "Flash ", "FLOOD", ", Forest FIRE". split; [reflexivity|].
    repeat (constructor;
            [apply Hcase;
             cbv [letter_cases upper_case lower_case combine list_ascii_of_string];
             solve [repeat constructor]|]).
    constructor. }
  split; [exact Hfire|]. split; [exact Hflood|].
  destruct (map_gdacs_type_priority_table "Flash FLOOD, Forest FIRE") as (_ & _ & H).
  exact (H Hfire Hflood).
Defined.

Example map_gdacs_type_fire_and_flood :
  map_gdacs_type "Flash FLOOD after Forest Fire" = "Wildfire" ∧
  map_gdacs_type "Tropical Cyclone IDA" = "Hurricane" ∧
  map_gdacs_type "Drought" = "Drought".
Proof. repeat split. Qed.

(** ** Binary64 comparisons *)

Lemma digits2_pos_bounds (m : positive) :
  2 ^ (Zpos (digits2_pos m) - 1) ≤ Zpos m < 2 ^ Zpos (digits2_pos m).
Proof.
  induction m as [m IH|m IH|]; cbn [digits2_pos].
  - rewrite Pos2Z.inj_succ, Z.pow_succ_r by lia.
    replace (Z.succ (Zpos (digits2_pos m)) - 1) with (Z.succ (Zpos (digits2_pos m) - 1)) by lia.
    rewrite Z.pow_succ_r by lia. lia.
  - rewrite Pos2Z.inj_succ, Z.pow_succ_r by lia.
    replace (Z.succ (Zpos (digits2_pos m)) - 1) with (Z.succ (Zpos (digits2_pos m) - 1)) by lia.
    rewrite Z.pow_succ_r by lia. lia.
  - simpl. lia.
Qed.

(** What [bounded] says about a mantissa and its exponent. *)
Lemma bounded_inv (m : positive) (e : Z) :
  bounded b64_prec b64_emax m e = true →
  -1074 ≤ e ∧ Zpos m < 2 ^ 53 ∧ (e = -1074 ∨ 2 ^ 52 ≤ Zpos m).
Proof.
  unfold bounded, canonical_mantissa, fexp, emin, b64_prec, b64_emax.
  intros H. apply andb_true_iff in H as [H _]. apply Z.eqb_eq in H.
  pose proof (digits2_pos_bounds m) as [Hlo Hhi].
  set (d := Zpos (digits2_pos m)) in *.
  assert (Hd : d ≤ 53) by lia.
  split; [lia|]. split.
  - eapply Z.lt_le_trans; [exact Hhi|]. apply Z.pow_le_mono_r; lia.
  - destruct (Z.eq_dec e (-1074)) as [|Hne]; [now left|right].
    assert (d = 53) as -> by lia. exact Hlo.
Qed.

Lemma scaled_lt (m1 m2 : positive) (e1 e2 : Z) :
  bounded b64_prec b64_emax m1 e1 = true →
  bounded b64_prec b64_emax m2 e2 = true →
  e1 < e2 →
  Zpos m1 * 2 ^ (e1 + 1074) < Zpos m2 * 2 ^ (e2 + 1074).
Proof.
  intros H1 H2 Hlt.
  apply bounded_inv in H1 as (He1 & Hm1 & _).
  apply bounded_inv in H2 as (He2 & _ & [->|Hm2]); [lia|].
  replace (e2 + 1074) with ((e2 - e1 - 1) + 1 + (e1 + 1074)) by lia.
  rewrite (Z.pow_add_r 2 (e2 - e1 - 1 + 1) (e1 + 1074)) by lia.
  rewrite (Z.pow_add_r 2 (e2 - e1 - 1) 1) by lia.
  assert (0 < 2 ^ (e1 + 1074)) by (apply Z.pow_pos_nonneg; lia).
  assert (0 < 2 ^ (e2 - e1 - 1)) by (apply Z.pow_pos_nonneg; lia).
  change (2 ^ 1) with 2. change (2 ^ 53) with (2 * 2 ^ 52) in Hm1.
  set (P := 2 ^ (e1 + 1074)) in *. set (K := 2 ^ (e2 - e1 - 1)) in *.
  set (B := 2 ^ 52) in *.
  assert (0 < B) by (subst B; lia).
  assert (Zpos m1 * P < 2 * B * P) by (apply Z.mul_lt_mono_pos_r; lia).
  assert (B * 1 ≤ Zpos m2 * K) by (apply Z.mul_le_mono_nonneg; lia).
  assert (2 * B * P ≤ Zpos m2 * (K * 2) * P) by (apply Z.mul_le_mono_nonneg_r; lia).
  lia.
Qed.

Lemma scaled_compare (m1 m2 : positive) (e1 e2 : Z) :
  bounded b64_prec b64_emax m1 e1 = true →
  bounded b64_prec b64_emax m2 e2 = true →
  match e1 ?= e2 with
  | Lt => Lt
  | Gt => Gt
  | Eq => Pos.compare_cont Eq m1 m2
  end = (Zpos m1 * 2 ^ (e1 + 1074) ?= Zpos m2 * 2 ^ (e2 + 1074)).
Proof.
  intros H1 H2. destruct (Z.compare_spec e1 e2) as [->|Hlt|Hgt].
  - assert (0 < 2 ^ (e2 + 1074)).
    { apply bounded_inv in H2 as (? & _). apply Z.pow_pos_nonneg; lia. }
    change (Pos.compare_cont Eq m1 m2) with (Zpos m1 ?= Zpos m2).
    apply Zmult_compare_compat_r. lia.
  - symmetry. apply Z.compare_lt_iff. now apply scaled_lt.
  - symmetry. apply Z.compare_gt_iff. now apply scaled_lt.
Qed.

Lemma SFcompare_SF2Z (x y : float) :
  b64_valid x = true → b64_valid y = true →
  is_finite x = true → is_finite y = true →
  SFcompare x y = Some (SF2Z x ?= SF2Z y).
Proof.
  unfold b64_valid.
  destruct x as [sx|sx| |sx mx ex], y as [sy|sy| |sy my ey];
    try discriminate; cbn [valid_binary is_finite SFcompare SF2Z]; intros Hx Hy _ _.
  - reflexivity.
  - apply bounded_inv in Hy as (? & _).
    assert (0 < Zpos my * 2 ^ (ey + 1074)) by (apply Z.mul_pos_pos; [lia|apply Z.pow_pos_nonneg; lia]).
    f_equal. symmetry. destruct sy; [apply Z.compare_gt_iff | apply Z.compare_lt_iff]; lia.
  - apply bounded_inv in Hx as (? & _).
    assert (0 < Zpos mx * 2 ^ (ex + 1074)) by (apply Z.mul_pos_pos; [lia|apply Z.pow_pos_nonneg; lia]).
    f_equal. symmetry. destruct sx; [apply Z.compare_lt_iff | apply Z.compare_gt_iff]; lia.
  - pose proof (scaled_compare mx my ex ey Hx Hy) as Hc.
    pose proof (scaled_compare my mx ey ex Hy Hx) as Hc'.
    assert (0 < Zpos mx * 2 ^ (ex + 1074)).
    { apply bounded_inv in Hx as (? & _). apply Z.mul_pos_pos; [lia|apply Z.pow_pos_nonneg; lia]. }
    assert (0 < Zpos my * 2 ^ (ey + 1074)).
    { apply bounded_inv in Hy as (? & _). apply Z.mul_pos_pos; [lia|apply Z.pow_pos_nonneg; lia]. }
    f_equal. destruct sx, sy.
    + set (a := Zpos mx * 2 ^ (ex + 1074)) in *.
      set (b := Zpos my * 2 ^ (ey + 1074)) in *.
      replace (-1 * a) with (- a) by lia. replace (-1 * b) with (- b) by lia.
      rewrite Z.compare_opp, <- Hc', (Z.compare_antisym ey ex).
      destruct (ey ?= ex); simpl; try reflexivity.
      apply Pos.compare_cont_antisym.
    + symmetry. apply Z.compare_lt_iff. lia.
    + symmetry. apply Z.compare_gt_iff. lia.
    + now rewrite !Z.mul_1_l.
Qed.

Lemma SFleb_SF2Z (x y : float) :
  b64_valid x = true → b64_valid y = true →
  is_finite x = true → is_finite y = true →
  SFleb x y = (SF2Z x <=? SF2Z y).
Proof.
  intros. unfold SFleb. rewrite SFcompare_SF2Z by assumption.
  unfold Z.leb. now destruct (SF2Z x ?= SF2Z y).
Qed.

(** The denotation of a well-formed float, in units of [2^-1074]. *)
Lemma SF2Q_scaled (x : float) :
  b64_valid x = true → is_finite x = true →
  (SF2Q x == inject_Z (SF2Z x) / inject_Z (2 ^ 1074))%Q.
Proof.
  unfold b64_valid. intros Hv Hf.
  destruct x as [s|s| |s m e]; try discriminate Hf.
  - reflexivity.
  - cbn [valid_binary] in Hv. apply bounded_inv in Hv as (He & _).
    cbn [SF2Q SF2Z].
    assert (Hp : (Qpower (inject_Z 2) e ==
                  inject_Z (2 ^ (e + 1074)) / inject_Z (2 ^ 1074))%Q).
    { rewrite !Zpower_Qpower by lia.
      replace e with ((e + 1074) - 1074) at 1 by lia.
      apply Qpower_minus. discriminate. }
    rewrite Hp, !inject_Z_mult. destruct s; field; discriminate.
Qed.

Lemma Qle_bool_scaled (x : float) (q : Q) (k : Z) :
  b64_valid x = true → is_finite x = true →
  (inject_Z k == q * inject_Z (2 ^ 1074))%Q →
  Qle_bool (SF2Q x) q = (SF2Z x <=? k).
Proof.
  intros Hv Hf Hk.
  assert (HP : (0 < inject_Z (2 ^ 1074))%Q).
  { rewrite <- (Zlt_Qlt 0). apply Z.pow_pos_nonneg; lia. }
  assert (HP0 : ¬ (inject_Z (2 ^ 1074) == 0)%Q).
  { intros E. rewrite E in HP. discriminate. }
  apply eq_true_iff_eq. rewrite Qle_bool_iff, Z.leb_le, (SF2Q_scaled x Hv Hf).
  rewrite Zle_Qle, Hk. split; intros H.
  - assert (E : (inject_Z (SF2Z x) ==
                 inject_Z (SF2Z x) / inject_Z (2 ^ 1074) * inject_Z (2 ^ 1074))%Q)
      by (field; exact HP0).
    rewrite E. apply Qmult_le_compat_r; [exact H | apply Qlt_le_weak, HP].
  - apply Qle_shift_div_r; assumption.
Qed.

(** ** The risk engine *)

Lemma radius_table (disaster_type : string) :
  default 50 (RISK_RADIUS !! disaster_type) = spec_radius disaster_type.
Proof.
  unfold spec_radius.
  destruct (String.eqb_spec disaster_type "Hurricane") as [->|?]; [vm_compute; reflexivity|].
  destruct (String.eqb_spec disaster_type "Flood") as [->|?]; [vm_compute; reflexivity|].
  destruct (String.eqb_spec disaster_type "Wildfire") as [->|?]; [vm_compute; reflexivity|].
  destruct (String.eqb_spec disaster_type "Tornado") as [->|?]; [vm_compute; reflexivity|].
  destruct (String.eqb_spec disaster_type "Earthquake") as [->|?]; [vm_compute; reflexivity|].
  unfold RISK_RADIUS. cbn [list_to_map foldr fst snd uncurry].
  now rewrite !lookup_insert_ne, lookup_empty by congruence.
Qed.

Lemma spec_radius_cases (disaster_type : string) :
  spec_radius disaster_type ∈ [100; 50; 75; 25; 60].
Proof.
  unfold spec_radius.
  repeat (destruct (String.eqb _ _); [set_solver|]). set_solver.
Qed.

(** A float comparison against a threshold [T] decides the exact comparison
    against the rational [T] denotes. *)
Lemma SFleb_exact (x T : float) (q : Q) :
  b64_valid x = true → is_finite x = true →
  b64_valid T = true → is_finite T = true →
  (inject_Z (SF2Z T) == q * inject_Z (2 ^ 1074))%Q →
  SFleb x T = Qle_bool (SF2Q x) q.
Proof.
  intros Hv Hf HvT HfT Hq.
  rewrite (SFleb_SF2Z x T Hv HvT Hf HfT).
  symmetry. now apply Qle_bool_scaled.
Qed.

Ltac tier_case R :=
  rewrite (SFleb_exact _ (float_mul f_0_5 (Z2SF R)) ((1 # 2) * inject_Z R)%Q),
          (SFleb_exact _ (Z2SF R) (inject_Z R)),
          (SFleb_exact _ (float_mul f_1_5 (Z2SF R)) ((3 # 2) * inject_Z R)%Q)
    by (assumption || (vm_compute; reflexivity));
  reflexivity.

(** On well-formed finite distances the float comparisons of
    [categorize_risk] decide the exact thresholds [R/2], [R] and [3R/2]. *)
Lemma categorize_risk_exact (user_dist : float) (disaster_type : string) :
  b64_valid user_dist = true → is_finite user_dist = true →
  categorize_risk user_dist disaster_type =
  spec_tier (SF2Q user_dist) (spec_radius disaster_type).
Proof.
  intros Hv Hf. unfold categorize_risk, spec_tier. rewrite radius_table.
  pose proof (spec_radius_cases disaster_type) as HR.
  repeat (apply elem_of_cons in HR as [->|HR]);
    [ tier_case 100 | tier_case 50 | tier_case 75 | tier_case 25 | tier_case 60
    | now apply elem_of_nil in HR ].
Qed.

Lemma spec_radius_pos (disaster_type : string) : 0 < spec_radius disaster_type.
Proof.
  pose proof (spec_radius_cases disaster_type) as HR.
  repeat (apply elem_of_cons in HR as [->|HR]); try lia.
  now apply elem_of_nil in HR.
Qed.

Lemma Qle_bool_false (x y : Q) : Qle_bool x y = false → (y < x)%Q.
Proof.
  intros H. apply Qnot_le_lt. intros Hle. apply Qle_bool_iff in Hle. congruence.
Qed.

Ltac split_Qle :=
  repeat match goal with
         | |- context [Qle_bool ?a ?b] =>
             let E := fresh "E" in
             destruct (Qle_bool a b) eqn:E;
             [apply Qle_bool_iff in E | apply Qle_bool_false in E]
         end.

Lemma spec_tier_cases (d : Q) (R : Z) :
  0 < R →
  ((d <= (1 # 2) * inject_Z R)%Q → spec_tier d R = Some "High") ∧
  (((1 # 2) * inject_Z R < d)%Q → (d <= inject_Z R)%Q →
     spec_tier d R = Some "Moderate") ∧
  ((inject_Z R < d)%Q → (d <= (3 # 2) * inject_Z R)%Q →
     spec_tier d R = Some "Low") ∧
  (((3 # 2) * inject_Z R < d)%Q → spec_tier d R = None).
Proof.
  intros HR. rewrite Zlt_Qlt in HR. change (inject_Z 0) with 0%Q in HR.
  unfold spec_tier. generalize dependent (inject_Z R). intros r HR.
  repeat split; intros; split_Qle; try reflexivity; exfalso; lra.
Qed.

Lemma spec_tier_monotone (d d' : Q) (R : Z) :
  0 < R → (d <= d')%Q →
  (severity (spec_tier d' R) ≤ severity (spec_tier d R))%nat.
Proof.
  intros HR Hle. rewrite Zlt_Qlt in HR. change (inject_Z 0) with 0%Q in HR.
  unfold spec_tier. generalize dependent (inject_Z R). intros r HR.
  split_Qle; simpl; try lia; exfalso; lra.
Qed.

(** C4. The base radius is that of the table (Hurricane 100, Flood 50,
    Wildfire 75, Tornado 25, Earthquake 60, any other type 50).  For every
    finite distance [d] (in particular every non-negative one) with base
    radius [R]: [d ≤ R/2] gives High, [R/2 < d ≤ R] gives Moderate,
    [R < d ≤ 3R/2] gives Low and [d > 3R/2] gives no tier, each boundary
    belonging to the more severe tier; and for a fixed type a larger distance
    never gives a more severe tier. *)
Theorem categorize_risk_tiers (d : float) (disaster_type : string) :
  b64_valid d = true → is_finite d = true →
  let R := spec_radius disaster_type in
  default 50 (RISK_RADIUS !! disaster_type) = R ∧
  ((SF2Q d <= (1 # 2) * inject_Z R)%Q →
     categorize_risk d disaster_type = Some "High") ∧
  (((1 # 2) * inject_Z R < SF2Q d)%Q → (SF2Q d <= inject_Z R)%Q →
     categorize_risk d disaster_type = Some "Moderate") ∧
  ((inject_Z R < SF2Q d)%Q → (SF2Q d <= (3 # 2) * inject_Z R)%Q →
     categorize_risk d disaster_type = Some "Low") ∧
  (((3 # 2) * inject_Z R < SF2Q d)%Q →
     categorize_risk d disaster_type = None) ∧
  (∀ d' : float, b64_valid d' = true → is_finite d' = true →
     (SF2Q d <= SF2Q d')%Q →
     (severity (categorize_risk d' disaster_type)
      ≤ severity (categorize_risk d disaster_type))%nat).
Proof.
  intros Hv Hf R.
  pose proof (spec_radius_pos disaster_type) as HR.
  pose proof (spec_tier_cases (SF2Q d) R HR) as (H1 & H2 & H3 & H4).
  rewrite (categorize_risk_exact d disaster_type Hv Hf). fold R.
  split; [apply radius_table|].
  repeat split; try assumption.
  intros d' Hv' Hf' Hle. rewrite (categorize_risk_exact d' disaster_type Hv' Hf').
  now apply spec_tier_monotone.
Qed.

(** A distance equal to half the radius is still High; just past the radius
    it is Low. *)
Lemma categorize_risk_tiers_witness :
  categorize_risk (Z2SF 25) "Flood" = Some "High" ∧
  categorize_risk (Z2SF 51) "Flood" = Some "Low".
Proof.
  split.
  - apply (categorize_risk_tiers (Z2SF 25) "Flood"); vm_compute; congruence.
  - apply (categorize_risk_tiers (Z2SF 51) "Flood"); vm_compute; congruence.
Defined.

(** Values that are not distances: an infinite or undefined distance gets no
    tier. *)
Example categorize_risk_not_finite :
  categorize_risk (S754_infinity false) "Flood" = None ∧
  categorize_risk S754_nan "Flood" = None.
Proof. split; vm_compute; reflexivity. Qed.

(** ** The alert log endpoint *)

(** A negative start counts from the end of the list. *)
Lemma slice_from_neg {A} (n : Z) (l : list A) :
  0 < n → slice_from (- n) l = drop (length l - Z.to_nat n)%nat l.
Proof.
  intros Hn. unfold slice_from.
  destruct (Z.ltb_spec (- n) 0) as [_|?]; [|lia].
  f_equal. lia.
Qed.

Lemma drop_suffix {A} (k : nat) (l : list A) :
  l = (take (length l - k)%nat l ++ drop (length l - k)%nat l)%list ∧
  length (drop (length l - k)%nat l) = Nat.min k (length l).
Proof.
  split; [now rewrite take_drop|]. rewrite length_drop. lia.
Qed.

(** C10. [get_alerts] leaves the alert log (and the rest of the state)
    unchanged; it answers the empty list when [limit ≤ 0]; otherwise, with
    [n] the limit clamped to 1000, it answers the last [n] entries of the log
    in stored order: the log is some older entries followed by the answer,
    and the answer has [n] entries, or the whole log when that is shorter. *)
Theorem get_alerts_last_entries (limit : Z) (w : World) :
  (get_alerts limit w).2 = w ∧
  (limit ≤ 0 → (get_alerts limit w).1 = []) ∧
  (0 < limit →
     let n := Z.to_nat (Z.min limit 1000) in
     (get_alerts limit w).1 = drop (length (ALERTS w) - n)%nat (ALERTS w) ∧
     (∃ older, ALERTS w = (older ++ (get_alerts limit w).1)%list) ∧
     length (get_alerts limit w).1 = Nat.min n (length (ALERTS w))).
Proof.
  unfold get_alerts. split; [|split].
  - now destruct (limit <=? 0).
  - intros H. now destruct (Z.leb_spec limit 0); [|lia].
  - intros H. set (n := Z.to_nat (Z.min limit 1000)).
    destruct (Z.leb_spec limit 0) as [?|_]; [lia|]. cbn [fst].
    assert (E : slice_from (- (if 1000 <? limit then 1000 else limit)) (ALERTS w)
                = drop (length (ALERTS w) - n)%nat (ALERTS w)).
    { rewrite slice_from_neg by (destruct (1000 <? limit); lia).
      do 2 f_equal. subst n. destruct (Z.ltb_spec 1000 limit); f_equal; lia. }
    rewrite E. destruct (drop_suffix n (ALERTS w)) as [Happ Hlen].
    split; [reflexivity|]. split; [|exact Hlen].
    now exists (take (length (ALERTS w) - n)%nat (ALERTS w)).
Qed.

Example get_alerts_runs :
  let w := {| CACHE := {| last_update := None; events := []; consecutive_failures := 0 |};
              ALERTS := [PyInt 1; PyInt 2; PyInt 3];
              LAST_ALERT := ∅; http_gets := 0 |} in
  (get_alerts 2 w).1 = [PyInt 2; PyInt 3] ∧
  (get_alerts default_limit w).1 = [PyInt 1; PyInt 2; PyInt 3] ∧
  (get_alerts 0 w).1 = [] ∧
  (get_alerts (-5) w).1 = [] ∧
  (get_alerts 5000 w).1 = [PyInt 1; PyInt 2; PyInt 3].
Proof. repeat split. Qed.

(** ** The alert throttle *)

Section Throttle.
Context {rt : PyRuntime}.

Lemma dt_sub_utc_l (t : Z) (dt : datetime) :
  dt_sub (utc t) (assume_utc dt) = inr (t - instant dt).
Proof.
  unfold dt_sub, assume_utc, instant.
  destruct dt as [wall [off|]]; simpl; f_equal; lia.
Qed.

Lemma dt_sub_utc_r (t : Z) (dt : datetime) :
  dt_sub (assume_utc dt) (utc t) = inr (instant dt - t).
Proof.
  unfold dt_sub, assume_utc, instant.
  destruct dt as [wall [off|]]; simpl; f_equal; lia.
Qed.

(** [should_send_alert] with the clock in UTC, by cases on the stored
    timestamp. *)
Lemma should_send_alert_utc (t : Z) (user_id : string) (min_hours : Z) (w : World) :
  should_send_alert (utc t) user_id min_hours w =
  match LAST_ALERT w !! user_id with
  | None => (true, stamped t user_id w)
  | Some last_str =>
      if String.eqb last_str "" then (true, stamped t user_id w) else
      match fromisoformat (replace_Z last_str) with
      | None => (true, stamped t user_id w)
      | Some last =>
          if timedelta_hours min_hours <? t - instant last
          then (true, stamped t user_id w) else (false, w)
      end
  end.
Proof.
  unfold should_send_alert, stamped.
  destruct (LAST_ALERT w !! user_id) as [last_str|]; [|reflexivity].
  destruct (String.eqb last_str ""); [reflexivity|].
  destruct (fromisoformat (replace_Z last_str)) as [last|]; [|reflexivity].
  now rewrite dt_sub_utc_l.
Qed.

Lemma should_send_alert_one (t : Z) (user_id : string) (min_hours : Z) (w : World) :
  let r := should_send_alert (utc t) user_id min_hours w in
  r.2 = (if r.1 then stamped t user_id w else w) ∧
  (LAST_ALERT w !! user_id = None → r.1 = true) ∧
  (∀ last_str, LAST_ALERT w !! user_id = Some last_str →
     (last_str = "" ∨ fromisoformat (replace_Z last_str) = None → r.1 = true) ∧
     (∀ last, last_str ≠ "" → fromisoformat (replace_Z last_str) = Some last →
        (r.1 = true ↔ timedelta_hours min_hours < t - instant last))).
Proof.
  cbn zeta. rewrite should_send_alert_utc.
  destruct (LAST_ALERT w !! user_id) as [last_str|] eqn:Hget.
  2:{ split; [reflexivity|]. split; [reflexivity|]. intros ? [=]. }
  destruct (String.eqb_spec last_str "") as [->|Hne].
  { split; [reflexivity|]. split; [discriminate|]. intros ? [= <-].
    split; [reflexivity|]. intros last Hne'. now destruct Hne'. }
  destruct (fromisoformat (replace_Z last_str)) as [last|] eqn:Hparse.
  2:{ split; [reflexivity|]. split; [discriminate|]. intros ? [= <-].
      split; [reflexivity|]. intros last _ Hp. congruence. }
  destruct (Z.ltb_spec (timedelta_hours min_hours) (t - instant last)) as [Hlt|Hge].
  - split; [reflexivity|]. split; [discriminate|]. intros ? [= <-].
    split; [reflexivity|]. intros last' _ Hp. rewrite Hparse in Hp.
    injection Hp as <-. now split.
  - split; [reflexivity|]. split; [discriminate|]. intros ? [= <-]. split.
    + intros [->|Hp]; [now destruct Hne | congruence].
    + intros last' _ Hp. rewrite Hparse in Hp. injection Hp as <-.
      split; [discriminate | cbn [fst]; lia].
Qed.

(** C3. One call of [should_send_alert] at the instant [t]:
    - it stores [now] for the user exactly when it answers [True] and leaves
      the state as it was when it answers [False];
    - it answers [True] when the user has no stored timestamp, an empty one,
      or one [fromisoformat] rejects;
    - otherwise it answers [True] exactly when the time elapsed since the
      stored timestamp strictly exceeds [min_hours] hours.
    Two calls for a user without a record, at [t] and then at [t2], answer
    [True] and then [True] exactly when [t2 - t] exceeds [min_hours] hours,
    provided the timestamp written by the first call reads back. *)
Theorem should_send_alert_throttle (t : Z) (user_id : string) (min_hours : Z)
    (w : World) :
  let r := should_send_alert (utc t) user_id min_hours w in
  r.2 = (if r.1 then stamped t user_id w else w) ∧
  (LAST_ALERT w !! user_id = None → r.1 = true) ∧
  (∀ last_str, LAST_ALERT w !! user_id = Some last_str →
     (last_str = "" ∨ fromisoformat (replace_Z last_str) = None → r.1 = true) ∧
     (∀ last, last_str ≠ "" → fromisoformat (replace_Z last_str) = Some last →
        (r.1 = true ↔ timedelta_hours min_hours < t - instant last))) ∧
  (∀ t2 first,
     LAST_ALERT w !! user_id = None →
     isoformat (utc t) ≠ "" →
     fromisoformat (replace_Z (isoformat (utc t))) = Some first →
     instant first = t →
     r.1 = true ∧
     ((should_send_alert (utc t2) user_id min_hours r.2).1 = true
      ↔ timedelta_hours min_hours < t2 - t)).
Proof.
  intros r. destruct (should_send_alert_one t user_id min_hours w) as (Hst & Hnone & Hsome).
  fold r in Hst, Hnone, Hsome.
  split; [exact Hst|]. split; [exact Hnone|]. split; [exact Hsome|].
  intros t2 first Hget Hne Hparse Hinst. split; [now apply Hnone|].
  rewrite Hst, (Hnone Hget).
  destruct (should_send_alert_one t2 user_id min_hours (stamped t user_id w))
    as (_ & _ & Hsome2).
  specialize (Hsome2 (isoformat (utc t))).
  unfold stamped at 1 in Hsome2. cbn [LAST_ALERT set_LAST_ALERT] in Hsome2.
  rewrite lookup_insert_eq in Hsome2. destruct (Hsome2 eq_refl) as [_ Hiff].
  pose proof (Hiff first Hne Hparse) as Hiff'. now rewrite Hinst in Hiff'.
Qed.

End Throttle.

(** ** Binary64 division *)

























(** ** The urgency classifier *)












Section Urgency.
Context {rt : PyRuntime}.



End Urgency.

(** ** The event normaliser *)

Section Normaliser.
Context {rt : PyRuntime}.

Lemma py_float_not_none (v : pyval) (x : float) :
  py_float v = inr x → is_none v = false.
Proof. now destruct v. Qed.

Lemma probe_timestamp_handled (fields : list string) (ev : gmap string pyval) :
  (∀ ts_field x, ts_field ∈ fields →
     truthy (dict_get ev ts_field) = true →
     parse_ts_value (dict_get ev ts_field) = inl x →
     caught [ValueError; TypeError; OSError] x = true) →
  ∃ ts, probe_timestamp fields ev = inr ts.
Proof.
  induction fields as [|f fields IH]; intros H; cbn [probe_timestamp].
  - now exists None.
  - assert (IH' := IH (λ g x Hg, H g x (list_elem_of_further _ _ _ Hg))).
    destruct (truthy (dict_get ev f)) eqn:Ht; [|exact IH'].
    destruct (parse_ts_value (dict_get ev f)) as [x|ts] eqn:Hp; [|now exists ts].
    now rewrite (H f x (list_elem_of_here _ _) Ht Hp).
Qed.

Lemma probe_timestamp_unparsed (fields : list string) (ev : gmap string pyval) :
  (∀ ts_field iso, ts_field ∈ fields →
     truthy (dict_get ev ts_field) = true →
     parse_ts_value (dict_get ev ts_field) ≠ inr (Some iso)) →
  ∀ ts, probe_timestamp fields ev = inr ts → ts = None.
Proof.
  induction fields as [|f fields IH]; intros H ts; cbn [probe_timestamp].
  - now intros [= <-].
  - assert (IH' := IH (λ g x Hg, H g x (list_elem_of_further _ _ _ Hg))).
    destruct (truthy (dict_get ev f)) eqn:Ht; [|apply IH'].
    destruct (parse_ts_value (dict_get ev f)) as [x|[iso|]] eqn:Hp.
    + destruct (caught _ x); [apply IH' | discriminate].
    + now destruct (H f iso (list_elem_of_here _ _) Ht).
    + now intros [= <-].
Qed.

Lemma normalize_unusable (now : datetime) (ev : gmap string pyval) :
  axis_unusable (probe_lat ev) ∨ axis_unusable (probe_lon ev) →
  ∀ e, normalize now ev ≠ Emit e.
Proof.
  intros H e. unfold normalize.
  destruct (is_none (probe_lat ev)) eqn:Hlat; [discriminate|].
  destruct (is_none (probe_lon ev)) eqn:Hlon; [discriminate|]. cbn [orb].
  destruct (py_float (probe_lat ev)) as [x|lat_float] eqn:Flat.
  { destruct (caught _ x); discriminate. }
  destruct (py_float (probe_lon ev)) as [x|lon_float] eqn:Flon.
  { destruct (caught _ x); discriminate. }
  destruct H as [[?|[x ?]]|[?|[x ?]]]; congruence.
Qed.

Lemma normalize_usable (now : datetime) (ev : gmap string pyval)
    (lat_float lon_float : float) (disaster_type : string) (ts : option string) :
  py_float (probe_lat ev) = inr lat_float →
  py_float (probe_lon ev) = inr lon_float →
  probe_type ev = PyStr disaster_type →
  probe_timestamp ts_fields ev = inr ts →
  normalize now ev =
  Emit {| ev_id := py_str (probe_id ev);
          ev_type := map_gdacs_type disaster_type;
          ev_coordinates := (lat_float, lon_float);
          ev_severity := probe_severity ev;
          ev_timestamp := default (isoformat now) ts |}.
Proof.
  intros Flat Flon Hty Hts. unfold normalize.
  rewrite (py_float_not_none _ _ Flat), (py_float_not_none _ _ Flon).
  cbn [orb]. now rewrite Flat, Flon, Hty, Hts.
Qed.

End Normaliser.

Section NormaliserClaims.
Context {rt : PyRuntime}.

Lemma axis_usable_or_not (v : pyval) :
  axis_unusable v ∨ ∃ x, py_float v = inr x.
Proof.
  destruct (py_float v) as [e|x] eqn:E; [left; right; now exists e | right; now exists x].
Qed.

(** C6 (amended). For a record whose type value is a string and whose
    timestamp aliases fail, if they fail, with an exception the loop handles:
    the record yields no event exactly when its latitude (the first non-null
    of [latitude], [lat]) or its longitude (the first non-null of
    [longitude], [lon], [lng]) is missing or [float] raises on it; otherwise
    it yields the event built from whatever floats [float] returned, finite
    or not, and when no timestamp alias yields a timestamp the event carries
    the current instant. *)
Theorem normalize_rejects_unusable_axes (now : datetime) (ev : gmap string pyval)
    (disaster_type : string) :
  probe_type ev = PyStr disaster_type →
  ts_handled ev →
  ((∀ e, normalize now ev ≠ Emit e) ↔
   axis_unusable (probe_lat ev) ∨ axis_unusable (probe_lon ev)) ∧
  (∀ lat_float lon_float,
     py_float (probe_lat ev) = inr lat_float →
     py_float (probe_lon ev) = inr lon_float →
     ∃ ts,
       normalize now ev =
       Emit {| ev_id := py_str (probe_id ev);
               ev_type := map_gdacs_type disaster_type;
               ev_coordinates := (lat_float, lon_float);
               ev_severity := probe_severity ev;
               ev_timestamp := default (isoformat now) ts |} ∧
       (ts_unparsed ev → ts = None)).
Proof.
  intros Hty Hts.
  destruct (probe_timestamp_handled ts_fields ev Hts) as [ts Hprobe].
  assert (Hemit : ∀ lat_float lon_float,
     py_float (probe_lat ev) = inr lat_float →
     py_float (probe_lon ev) = inr lon_float →
     ∃ ts,
       normalize now ev =
       Emit {| ev_id := py_str (probe_id ev);
               ev_type := map_gdacs_type disaster_type;
               ev_coordinates := (lat_float, lon_float);
               ev_severity := probe_severity ev;
               ev_timestamp := default (isoformat now) ts |} ∧
       (ts_unparsed ev → ts = None)).
  { intros lat_float lon_float Flat Flon. exists ts. split.
    - now apply normalize_usable.
    - intros Hun. now apply (probe_timestamp_unparsed ts_fields ev Hun). }
  split; [|exact Hemit]. split.
  - intros Hno.
    destruct (axis_usable_or_not (probe_lat ev)) as [?|[lat_float Flat]]; [now left|].
    destruct (axis_usable_or_not (probe_lon ev)) as [?|[lon_float Flon]]; [now right|].
    destruct (Hemit lat_float lon_float Flat Flon) as (ts' & Hn & _).
    now destruct (Hno _ Hn).
  - apply normalize_unusable.
Qed.

Lemma dict_get_insert_ne (ev : gmap string pyval) (k k' : string) (v : pyval) :
  k ≠ k' → dict_get (<[k := v]> ev) k' = dict_get ev k'.
Proof. intros H. unfold dict_get. now rewrite lookup_insert_ne. Qed.

Lemma dict_get_or_insert_ne (ev : gmap string pyval) (k k' : string) (v d : pyval) :
  k ≠ k' → dict_get_or (<[k := v]> ev) k' d = dict_get_or ev k' d.
Proof. intros H. unfold dict_get_or. now rewrite lookup_insert_ne. Qed.

Lemma probe_timestamp_insert_ne (fields : list string) (ev : gmap string pyval)
    (k : string) (v : pyval) :
  k ∉ fields →
  probe_timestamp fields (<[k := v]> ev) = probe_timestamp fields ev.
Proof.
  induction fields as [|f fields IH]; intros Hk; [reflexivity|].
  apply not_elem_of_cons in Hk as [Hne Hk]. cbn [probe_timestamp].
  now rewrite dict_get_insert_ne, IH by assumption.
Qed.

(** C9. When the three type aliases of a record are absent or falsy, the
    normaliser takes the type to be "Disaster", which the mapper returns
    unchanged: the record is treated exactly as if it carried the type
    "Disaster", any event it yields has that type, and it yields one whenever
    its coordinates and timestamp are read. *)
Theorem normalize_default_type (now : datetime) (ev : gmap string pyval) :
  truthy (dict_get ev "eventtype") = false →
  truthy (dict_get ev "title") = false →
  truthy (dict_get ev "eventType") = false →
  probe_type ev = PyStr "Disaster" ∧
  map_gdacs_type "Disaster" = "Disaster" ∧
  normalize now ev = normalize now (<["eventtype" := PyStr "Disaster"]> ev) ∧
  (∀ e, normalize now ev = Emit e → ev_type e = "Disaster") ∧
  (∀ lat_float lon_float ts,
     py_float (probe_lat ev) = inr lat_float →
     py_float (probe_lon ev) = inr lon_float →
     probe_timestamp ts_fields ev = inr ts →
     ∃ e, normalize now ev = Emit e ∧ ev_type e = "Disaster").
Proof.
  intros H1 H2 H3.
  assert (Hty : probe_type ev = PyStr "Disaster").
  { unfold probe_type, py_or. now rewrite H1, H2, H3. }
  split; [exact Hty|]. split; [reflexivity|]. split; [|split].
  - unfold normalize, probe_lat, probe_lon, probe_id, probe_severity.
    rewrite !dict_get_insert_ne, dict_get_or_insert_ne by discriminate.
    rewrite probe_timestamp_insert_ne
      by (unfold ts_fields; rewrite !not_elem_of_cons; repeat split;
          try discriminate; apply not_elem_of_nil).
    assert (Hty' : probe_type (<["eventtype" := PyStr "Disaster"]> ev)
                   = PyStr "Disaster").
    { unfold probe_type, dict_get at 1. now rewrite lookup_insert_eq. }
    now rewrite Hty, Hty'.
  - intros e. unfold normalize. rewrite Hty.
    repeat match goal with
           | |- context [match ?x with _ => _ end] => destruct x
           | |- context [if ?x then _ else _] => destruct x
           end; try discriminate.
    now intros [= <-].
  - intros lat_float lon_float ts Flat Flon Hts.
    rewrite (normalize_usable now ev lat_float lon_float "Disaster" ts Flat Flon Hty Hts).
    eexists. split; reflexivity.
Qed.

End NormaliserClaims.

(** C6, as stated, fails: the record whose latitude is the float infinity
    does not read as a finite real number, and yet it yields an event. *)
Lemma normalize_accepts_infinite_latitude :
  ¬ rejects_exactly_non_finite (rt := Sample.runtime)
      (utc t_2024_03_01) record_infinite_latitude.
Proof.
  intros [_ Hreject].
  eapply Hreject.
  - left. intros (x & Hx & Hfin). vm_compute in Hx. injection Hx as <-. discriminate.
  - vm_compute. reflexivity.
Qed.

(** ** The cache and resync manager *)

Lemma merge_recent_filter (existing_ids : gset string)
    (recent_events events : list Event) :
  merge_recent existing_ids recent_events events =
  (events ++ filter (λ e, ev_id e ∉ existing_ids) recent_events)%list.
Proof.
  revert events. induction recent_events as [|event recent_events IH]; intros events.
  - now rewrite app_nil_r.
  - cbn [merge_recent]. rewrite filter_cons. cbn beta.
    case_bool_decide as Hnew; destruct (decide (ev_id event ∉ existing_ids));
      try contradiction.
    + rewrite IH, <- app_assoc. reflexivity.
    + apply IH.
Qed.

(** C7 (amended). The merge is keyed on [id] and treats the empty string
    like any other identifier: the merged list is [events] followed by the
    candidates whose id is not among [existing_ids], in their order; a
    candidate without an identifier is kept exactly when the empty string is
    not among [existing_ids]; and candidates are not compared with one
    another, so two candidates with the same new identifier are both
    appended. *)
Theorem merge_recent_keyed_on_id (existing_ids : gset string)
    (recent_events events : list Event) :
  merge_recent existing_ids recent_events events =
    (events ++ filter (λ e, ev_id e ∉ existing_ids) recent_events)%list ∧
  (∀ event, ev_id event = "" →
     merge_recent existing_ids [event] events =
     if bool_decide ("" ∈ existing_ids) then events else (events ++ [event])%list) ∧
  (∀ e1 e2, ev_id e1 = ev_id e2 → ev_id e1 ∉ existing_ids →
     merge_recent existing_ids [e1; e2] events = (events ++ [e1; e2])%list).
Proof.
  split; [apply merge_recent_filter|]. split.
  - intros event Hid. cbn [merge_recent]. rewrite Hid.
    case_bool_decide; case_bool_decide; try reflexivity; contradiction.
  - intros e1 e2 Hsame Hnew. cbn [merge_recent]. rewrite <- Hsame.
    rewrite bool_decide_eq_true_2 by assumption.
    now rewrite <- app_assoc.
Qed.

(** C7, as stated, fails: with one cached event without an identifier, a
    resync candidate without an identifier is dropped. *)
Lemma empty_id_candidate_dropped :
  ¬ empty_id_always_appended [event_anon1] [event_anon2] [].
Proof.
  intros H. specialize (H event_anon2 (list_elem_of_here _ _) eq_refl).
  vm_compute in H. inversion H.
Qed.

Section CacheManager.
Context {rt : PyRuntime}.

(** A fetch issues one request and touches nothing else. *)
Lemma fetch_gdacs_events_world (upstream : nat → response) (now : datetime) (w : World) :
  (fetch_gdacs_events upstream now w).2 = (http_get upstream w).2.
Proof. unfold fetch_gdacs_events, http_get. now destruct (upstream (http_gets w)). Qed.

Lemma fetch_recent_gdacs_events_world (upstream : nat → response)
    (now since : datetime) (w : World) :
  (fetch_recent_gdacs_events upstream now since w).2 = (http_get upstream w).2.
Proof.
  unfold fetch_recent_gdacs_events, http_get. now destruct (upstream (http_gets w)).
Qed.

(** [safe_update_events] in terms of the results of its fetches. *)
Lemma safe_update_events_unfold (upstream : nat → response) (now : datetime) (w : World) :
  safe_update_events upstream now w =
  let w1 := (http_get upstream w).2 in
  match (fetch_disaster_data upstream now w).1 with
  | inl _ => record_failure w1
  | inr events0 =>
      if 1 <? consecutive_failures (CACHE w) then
        let w2 := (http_get upstream w1).2 in
        match (fetch_recent_gdacs_events upstream now (dt_minus_hours now 24) w1).1 with
        | inl _ => record_failure w2
        | inr recent_events =>
            record_success now
              (merge_recent (ids_of (events (CACHE w))) recent_events events0) w2
        end
      else record_success now events0 w1
  end.
Proof.
  unfold safe_update_events, fetch_disaster_data.
  pose proof (fetch_gdacs_events_world upstream now w) as Hw1.
  destruct (fetch_gdacs_events upstream now w) as [fetched w1]. cbn [fst snd] in *.
  subst w1. destruct fetched as [x|events0]; [reflexivity|].
  cbn [http_get snd CACHE]. destruct (1 <? consecutive_failures (CACHE w)); [|reflexivity].
  pose proof (fetch_recent_gdacs_events_world upstream now (dt_minus_hours now 24)
                (http_get upstream w).2) as Hw2.
  cbn [http_get snd] in Hw2.
  destruct (fetch_recent_gdacs_events upstream now (dt_minus_hours now 24) _)
    as [fetched w2]. cbn [fst snd] in *. subst w2. reflexivity.
Qed.

(** A tick whose snapshot fetch raises: the [except] branch. *)
Lemma safe_update_events_raise (upstream : nat → response) (now : datetime)
    (w : World) (x : pyexc) :
  (fetch_disaster_data upstream now w).1 = inl x →
  CACHE (safe_update_events upstream now w) =
  {| last_update := last_update (CACHE w);
     events := events (CACHE w);
     consecutive_failures := consecutive_failures (CACHE w) + 1 |}.
Proof. intros H. rewrite safe_update_events_unfold. cbn zeta. now rewrite H. Qed.

(** A tick of a live process whose snapshot fetch returns. *)
Lemma safe_update_events_live (upstream : nat → response) (now : datetime)
    (w : World) (events0 : list Event) :
  (fetch_disaster_data upstream now w).1 = inr events0 →
  consecutive_failures (CACHE w) ≤ 1 →
  CACHE (safe_update_events upstream now w) =
    {| last_update := Some (isoformat now); events := events0;
       consecutive_failures := 0 |} ∧
  http_gets (safe_update_events upstream now w) = S (http_gets w).
Proof.
  intros H Hlive. rewrite safe_update_events_unfold. cbn zeta. rewrite H.
  destruct (Z.ltb_spec 1 (consecutive_failures (CACHE w))); [lia|].
  split; reflexivity.
Qed.

(** A tick of a degraded process whose two fetches return: one resync
    request is issued, and its events are filtered against the identifiers
    of the events cached before the tick. *)
Lemma safe_update_events_recovering (upstream : nat → response) (now : datetime)
    (w : World) (events0 recent_events : list Event) :
  (fetch_disaster_data upstream now w).1 = inr events0 →
  1 < consecutive_failures (CACHE w) →
  (fetch_recent_gdacs_events upstream now (dt_minus_hours now 24)
     (fetch_disaster_data upstream now w).2).1 = inr recent_events →
  CACHE (safe_update_events upstream now w) =
    {| last_update := Some (isoformat now);
       events := (events0 ++ filter (λ e, ev_id e ∉ ids_of (events (CACHE w)))
                              recent_events)%list;
       consecutive_failures := 0 |} ∧
  http_gets (safe_update_events upstream now w) = S (S (http_gets w)).
Proof.
  intros H Hdeg Hrecent. rewrite safe_update_events_unfold. cbn zeta. rewrite H.
  destruct (Z.ltb_spec 1 (consecutive_failures (CACHE w))); [|lia].
  unfold fetch_disaster_data in Hrecent. rewrite fetch_gdacs_events_world in Hrecent.
  rewrite Hrecent. unfold record_success, set_CACHE. cbn [CACHE http_gets http_get snd].
  now rewrite merge_recent_filter.
Qed.

(** C1 (the code at the failing input). When the feed cannot be reached,
    [fetch_gdacs_events] returns the empty list instead of raising, so a tick
    takes the success path: whatever the cache held, its events are replaced
    by the empty list, the failure counter is set to 0 and [last_update] to
    now; after one, two and three such ticks the counter is 0, not 1, 2, 3. *)
Theorem upstream_failure_clears_cache (now : datetime) (w : World) :
  (fetch_gdacs_events feed_down now w).1 = inr [] ∧
  CACHE (safe_update_events feed_down now w) =
    {| last_update := Some (isoformat now); events := [];
       consecutive_failures := 0 |} ∧
  (∀ n, CACHE (ticks (S n) feed_down now w) =
        {| last_update := Some (isoformat now); events := [];
           consecutive_failures := 0 |}).
Proof.
  assert (Hone : ∀ w, CACHE (safe_update_events feed_down now w) =
    {| last_update := Some (isoformat now); events := [];
       consecutive_failures := 0 |}).
  { clear w. intros w. rewrite safe_update_events_unfold. cbn.
    now destruct (1 <? consecutive_failures (CACHE w)). }
  split; [reflexivity|]. split; [apply Hone|].
  intros n. revert w. induction n as [|n IH]; intros w.
  - apply Hone.
  - change (ticks (S (S n)) feed_down now w)
      with (ticks (S n) feed_down now (safe_update_events feed_down now w)).
    apply IH.
Qed.

End CacheManager.

(** The same on a live process that serves one event: the lost connection
    wipes the cache. *)
Example upstream_failure_on_live_cache :
  events (CACHE world_live) = [event_A] ∧
  CACHE (safe_update_events (rt := Sample.runtime) feed_down (utc t_noon) world_live) =
    {| last_update := Some "2024-03-01T12:00:00+00:00"; events := [];
       consecutive_failures := 0 |}.
Proof. split; vm_compute; reflexivity. Qed.

(** C2 (the code at the failing input). A degraded process with an empty
    cache recovers; the snapshot holds A and B, the resync returns A and C.
    The resync events are filtered against the events cached before the
    tick, not against the snapshot they are appended to: A is kept twice. *)
Theorem resync_duplicates_snapshot_event :
  CACHE (safe_update_events (rt := Sample.runtime) feed_AB_then_AC (utc t_noon)
           world_degraded) =
    {| last_update := Some "2024-03-01T12:00:00+00:00";
       events := [event_A; event_B; event_A; event_C];
       consecutive_failures := 0 |} ∧
  http_gets (safe_update_events (rt := Sample.runtime) feed_AB_then_AC (utc t_noon)
               world_degraded) = 2%nat.
Proof. split; vm_compute; reflexivity. Qed.

(** ** Concrete runs on the sample runtime *)

(** Two calls for a new user 5h59m apart answer (True, False); 6h01m apart
    they answer (True, True). *)
Lemma should_send_alert_throttle_witness :
  (should_send_alert (rt := Sample.runtime) (utc t_noon) "u1" default_min_hours world0).1
    = true ∧
  (should_send_alert (rt := Sample.runtime)
     (utc (t_noon + 5 * us_per_hour + 59 * 60000000)) "u1" default_min_hours
     (should_send_alert (rt := Sample.runtime) (utc t_noon) "u1" default_min_hours
        world0).2).1 = false ∧
  (should_send_alert (rt := Sample.runtime)
     (utc (t_noon + 6 * us_per_hour + 60000000)) "u1" default_min_hours
     (should_send_alert (rt := Sample.runtime) (utc t_noon) "u1" default_min_hours
        world0).2).1 = true.
Proof.
  destruct (should_send_alert_throttle (rt := Sample.runtime)
              t_noon "u1" default_min_hours world0) as (_ & _ & _ & Htwo).
  assert (Hnew : LAST_ALERT world0 !! "u1" = None) by reflexivity.
  assert (Hne : isoformat (PyRuntime := Sample.runtime) (utc t_noon) ≠ "")
    by (vm_compute; discriminate).
  assert (Hback : fromisoformat (PyRuntime := Sample.runtime)
                    (replace_Z (isoformat (PyRuntime := Sample.runtime) (utc t_noon)))
                  = Some (utc t_noon)) by (vm_compute; reflexivity).
  assert (Hinst : instant (utc t_noon) = t_noon) by (vm_compute; reflexivity).
  destruct (Htwo (t_noon + 5 * us_per_hour + 59 * 60000000) (utc t_noon)
              Hnew Hne Hback Hinst) as [Hfirst Hearly].
  destruct (Htwo (t_noon + 6 * us_per_hour + 60000000) (utc t_noon)
              Hnew Hne Hback Hinst) as [_ Hlate].
  split; [exact Hfirst|]. split.
  - apply not_true_is_false. intros Htrue. apply Hearly in Htrue.
    vm_compute in Htrue. discriminate.
  - apply Hlate. vm_compute. reflexivity.
Defined.

(** The state after the two allowed calls. *)
Example should_send_alert_after_cooldown :
  (should_send_alert (rt := Sample.runtime)
     (utc (t_noon + 6 * us_per_hour + 60000000)) "u1" default_min_hours
     (should_send_alert (rt := Sample.runtime) (utc t_noon) "u1" default_min_hours
        world0).2) =
  (true, stamped (rt := Sample.runtime) (t_noon + 6 * us_per_hour + 60000000) "u1"
           (stamped (rt := Sample.runtime) t_noon "u1" world0)).
Proof. vm_compute. reflexivity. Qed.

Example should_send_alert_stored_timestamp :
  LAST_ALERT (should_send_alert (rt := Sample.runtime) (utc t_noon) "u1"
                default_min_hours world0).2 !! "u1"
  = Some "2024-03-01T12:00:00+00:00".
Proof. vm_compute. reflexivity. Qed.

Example classify_alert_level_runs :
  let classify := classify_alert_level (rt := Sample.runtime) (utc t_2024_03_01) in
  classify (PyStr "2024-03-05T00:00:00Z") = inr ("Reminder", "4 days away") ∧
  classify (PyStr "2024-03-04T00:00:00.000001Z") = inr ("Reminder", "3 days away") ∧
  classify (PyStr "2024-03-04T00:00:00Z") = inr ("Warning", "3 days away") ∧
  classify (PyStr "2024-03-02T00:00:00.000001") = inr ("Warning", "1 days away") ∧
  classify (PyStr "2024-03-02T00:00:00Z") = inr ("Emergency", "Within 24h") ∧
  classify (PyStr "2024-03-01T05:59:59+00:00") = inr ("Emergency", "Within 5h") ∧
  classify (PyStr "2024-03-01T00:00:00Z") = inr ("Emergency", "Within 0h") ∧
  classify (PyStr "2024-02-29T23:59:59.999999Z") = inr ("Emergency", "Past event") ∧
  classify (PyStr "next week") = inr ("Emergency", "Unknown time") ∧
  classify PyNone = inr ("Emergency", "Unknown time").
Proof. vm_compute. repeat split. Qed.


(** The quotients on the way: [total_seconds()] is rounded to a multiple of
    [2^-18] seconds, and the day count is then exactly 198842. *)
Example far_future_quotients :
  total_seconds (198842 * us_per_day - 1)
    = inr (S754_finite false 4503620498227200 (-18)) ∧
  float_div (float_div (S754_finite false 4503620498227200 (-18)) (Z2SF 3600)) (Z2SF 24)
    = Z2SF 198842.
Proof. vm_compute. repeat split. Qed.

Example merge_recent_runs :
  merge_recent (ids_of [event_A; event_B]) [event_A; event_C] [event_A; event_B]
    = [event_A; event_B; event_C] ∧
  merge_recent (ids_of []) [event_anon1; event_anon2] []
    = [event_anon1; event_anon2] ∧
  merge_recent (ids_of [event_anon1]) [event_anon2; event_C] [event_A]
    = [event_A; event_C].
Proof. vm_compute. repeat split. Qed.

Lemma record_nan_latitude_ts (ts_field : string) :
  ts_field ∈ ts_fields →
  truthy (dict_get record_nan_latitude ts_field) = true →
  parse_ts_value (rt := Sample.runtime) (dict_get record_nan_latitude ts_field)
  = inl ValueError.
Proof.
  unfold ts_fields. intros Hin.
  repeat (apply elem_of_cons in Hin as [->|Hin]);
    try (now apply elem_of_nil in Hin); vm_compute; congruence.
Qed.

(** The record with the latitude ["nan"] and an unreadable date yields an
    event: its latitude is not a number and its timestamp is the current
    instant. *)
Lemma normalize_rejects_unusable_axes_witness :
  normalize (rt := Sample.runtime) (utc t_noon) record_nan_latitude =
  Emit {| ev_id := "77"; ev_type := "Flood";
          ev_coordinates := (S754_nan, float_div (Z2SF 125) (Z2SF 10));
          ev_severity := PyStr "unknown";
          ev_timestamp := "2024-03-01T12:00:00+00:00" |}.
Proof.
  assert (Hty : probe_type record_nan_latitude = PyStr "FLOOD warning")
    by (vm_compute; reflexivity).
  assert (Hts : ts_handled (rt := Sample.runtime) record_nan_latitude).
  { intros ts_field x Hin Ht Hp.
    rewrite (record_nan_latitude_ts ts_field Hin Ht) in Hp.
    injection Hp as <-. reflexivity. }
  assert (Hun : ts_unparsed (rt := Sample.runtime) record_nan_latitude).
  { intros ts_field iso Hin Ht.
    now rewrite (record_nan_latitude_ts ts_field Hin Ht). }
  destruct (normalize_rejects_unusable_axes (rt := Sample.runtime)
              (utc t_noon) record_nan_latitude "FLOOD warning" Hty Hts) as [_ Hemit].
  assert (Flat : py_float (rt := Sample.runtime) (probe_lat record_nan_latitude)
                 = inr S754_nan) by (vm_compute; reflexivity).
  assert (Flon : py_float (rt := Sample.runtime) (probe_lon record_nan_latitude)
                 = inr (float_div (Z2SF 125) (Z2SF 10))) by (vm_compute; reflexivity).
  destruct (Hemit _ _ Flat Flon) as (ts & Hn & Hnone).
  rewrite Hn, (Hnone Hun). vm_compute. reflexivity.
Defined.

(** The record whose only type alias is the empty string yields an event of
    type "Disaster". *)
Lemma normalize_default_type_witness :
  ∃ e, normalize (rt := Sample.runtime) (utc t_noon) record_untyped = Emit e ∧
       ev_type e = "Disaster".
Proof.
  assert (H1 : truthy (dict_get record_untyped "eventtype") = false)
    by (vm_compute; reflexivity).
  assert (H2 : truthy (dict_get record_untyped "title") = false)
    by (vm_compute; reflexivity).
  assert (H3 : truthy (dict_get record_untyped "eventType") = false)
    by (vm_compute; reflexivity).
  destruct (normalize_default_type (rt := Sample.runtime) (utc t_noon) record_untyped
              H1 H2 H3) as (_ & _ & _ & _ & Hemit).
  apply (Hemit (Z2SF 40) (Z2SF (-75)) (Some "2024-03-02T06:00:00+00:00"));
    vm_compute; reflexivity.
Defined.

Example normalize_untyped_record :
  normalize (rt := Sample.runtime) (utc t_noon) record_untyped =
  Emit {| ev_id := ""; ev_type := "Disaster";
          ev_coordinates := (Z2SF 40, Z2SF (-75));
          ev_severity := PyStr "unknown";
          ev_timestamp := "2024-03-02T06:00:00+00:00" |}.
Proof. vm_compute. reflexivity. Qed.

(** A payload that cannot be iterated makes the fetch raise: this is the
    path on which the failure counter is incremented and the cache kept. *)
Example malformed_payload_counts_as_failure :
  CACHE (safe_update_events (rt := Sample.runtime) (λ _, HttpJson PyNone)
           (utc t_noon) world_live) =
    {| last_update := Some "2024-03-01T00:00:00+00:00"; events := [event_A];
       consecutive_failures := 1 |}.
Proof. vm_compute. reflexivity. Qed.

(** A timestamp beyond the range of the platform clock raises
    [OverflowError], which the timestamp loop does not handle: the whole
    fetch raises. *)
Example huge_epoch_timestamp_raises :
  (fetch_gdacs_events (rt := Sample.runtime)
     (λ _, HttpJson (PyList [record_A;
        PyDict (<["latitude" := PyInt 1]> (<["longitude" := PyInt 2]>
                  (<["fromdate" := PyFloat (Z2SF (10 ^ 22))]> ∅)))]))
     (utc t_noon) world_live).1
  = inl OverflowError.
Proof. vm_compute. reflexivity. Qed.

(** When the cache already holds the snapshot's events, the recovery merges
    the resync without a duplicate. *)
Example resync_over_matching_cache :
  events (CACHE (safe_update_events (rt := Sample.runtime) feed_AB_then_AC (utc t_noon)
    {| CACHE := {| last_update := None; events := [event_A; event_B];
                   consecutive_failures := 2 |};
       ALERTS := []; LAST_ALERT := ∅; http_gets := 0 |}))
  = [event_A; event_B; event_C].
Proof. vm_compute. reflexivity. Qed.

(** * Part III: further properties of the code *)

(** ** The type mapper *)

(** X1. Mapping is idempotent: the result of [map_gdacs_type] is one of the
    five canonical names or the title itself, and mapping it again changes
    nothing. *)
Theorem map_gdacs_type_idempotent (title : string) :
  (map_gdacs_type title ∈ ["Wildfire"; "Hurricane"; "Flood"; "Volcano"; "Earthquake"]
   ∨ map_gdacs_type title = title) ∧
  map_gdacs_type (map_gdacs_type title) = map_gdacs_type title.
Proof.
  assert (H : map_gdacs_type title ∈
                ["Wildfire"; "Hurricane"; "Flood"; "Volcano"; "Earthquake"]
              ∨ map_gdacs_type title = title).
  { unfold map_gdacs_type.
    repeat match goal with
           | |- context [if ?c then _ else _] => destruct c; [left; set_solver|]
           end.
    now right. }
  split; [exact H|]. destruct H as [H|H].
  - repeat (apply elem_of_cons in H as [->|H]); try reflexivity.
    now apply elem_of_nil in H.
  - now rewrite !H.
Qed.

(** ** The feed client *)

Section Feed.
Context {rt : PyRuntime}.

Lemma normalize_all_app (now : datetime) (xs ys : list pyval) :
  normalize_all now (xs ++ ys) =
  match normalize_all now xs with
  | inl e => inl e
  | inr a =>
      match normalize_all now ys with
      | inl e => inl e
      | inr b => inr (a ++ b)%list
      end
  end.
Proof.
  induction xs as [|x xs IH]; cbn [app normalize_all].
  - now destruct (normalize_all now ys).
  - destruct x; try reflexivity.
    destruct (normalize now d); [|exact IH|reflexivity].
    rewrite IH. destruct (normalize_all now xs); [reflexivity|].
    now destruct (normalize_all now ys).
Qed.

Lemma normalize_all_length (now : datetime) (data : list pyval) (evs : list Event) :
  normalize_all now data = inr evs → (length evs ≤ length data)%nat.
Proof.
  revert evs. induction data as [|x data IH]; intros evs; cbn [normalize_all].
  - intros [= <-]. reflexivity.
  - destruct x; try discriminate.
    destruct (normalize now d); [| |discriminate].
    + destruct (normalize_all now data) as [|evs']; [discriminate|].
      intros [= <-]. specialize (IH evs' eq_refl). simpl. lia.
    + intros H. specialize (IH evs H). simpl. lia.
Qed.

(** X2. The loop of [fetch_gdacs_events] treats the records independently:
    the events of a list of records are those of its first part followed by
    those of the rest (the first raising record aborts the whole); a record
    the loop skips contributes nothing and does not affect its neighbours;
    and a feed never yields more events than it has records. *)
Theorem normalize_all_independent (now : datetime) (xs ys : list pyval) :
  normalize_all now (xs ++ ys) =
    match normalize_all now xs with
    | inl e => inl e
    | inr a =>
        match normalize_all now ys with
        | inl e => inl e
        | inr b => inr (a ++ b)%list
        end
    end ∧
  (∀ ev, normalize now ev = Skip →
     normalize_all now (xs ++ PyDict ev :: ys) = normalize_all now (xs ++ ys)) ∧
  (∀ evs, normalize_all now xs = inr evs → (length evs ≤ length xs)%nat).
Proof.
  split; [apply normalize_all_app|]. split; [|apply normalize_all_length].
  intros ev Hskip. rewrite !normalize_all_app.
  destruct (normalize_all now xs); [reflexivity|].
  cbn [normalize_all]. now rewrite Hskip.
Qed.

Lemma normalize_recent_filter (now since : datetime) (data : list pyval) :
  normalize_recent now since data =
  match normalize_all now data with
  | inl e => inl e
  | inr evs => inr (List.filter (is_recent since) evs)
  end.
Proof.
  induction data as [|x data IH]; cbn [normalize_recent normalize_all]; [reflexivity|].
  destruct x; try reflexivity.
  destruct (normalize now d); [|exact IH|reflexivity].
  rewrite IH. destruct (normalize_all now data); [reflexivity|].
  cbn [List.filter]. reflexivity.
Qed.

Lemma is_recent_utc (s : Z) (event : Event) :
  is_recent (utc s) event =
  match fromisoformat (replace_Z (ev_timestamp event)) with
  | None => true
  | Some event_dt => s <=? instant event_dt
  end.
Proof.
  unfold is_recent, dt_ge. destruct (fromisoformat _) as [dt|]; [|reflexivity].
  rewrite dt_sub_utc_r. apply eq_true_iff_eq. rewrite !Z.leb_le. lia.
Qed.

(** X3. The resync fetch is the snapshot fetch followed by a filter: on the
    same answer of the feed, [fetch_recent_gdacs_events] raises exactly when
    [fetch_gdacs_events] does, and otherwise returns, in the same order, the
    events of the snapshot whose timestamp does not read back, or reads back
    as an instant not before [since]; both issue one request and leave the
    globals alone. *)
Theorem fetch_recent_is_filtered_snapshot (upstream : nat → response)
    (now : datetime) (s : Z) (w : World) :
  (fetch_recent_gdacs_events upstream now (utc s) w).1 =
    match (fetch_gdacs_events upstream now w).1 with
    | inl e => inl e
    | inr evs =>
        inr (List.filter
               (λ event,
                  match fromisoformat (replace_Z (ev_timestamp event)) with
                  | None => true
                  | Some event_dt => s <=? instant event_dt
                  end) evs)
    end ∧
  (fetch_recent_gdacs_events upstream now (utc s) w).2 =
    (fetch_gdacs_events upstream now w).2 ∧
  CACHE (fetch_gdacs_events upstream now w).2 = CACHE w ∧
  ALERTS (fetch_gdacs_events upstream now w).2 = ALERTS w ∧
  LAST_ALERT (fetch_gdacs_events upstream now w).2 = LAST_ALERT w ∧
  http_gets (fetch_gdacs_events upstream now w).2 = S (http_gets w).
Proof.
  rewrite fetch_recent_gdacs_events_world, fetch_gdacs_events_world.
  split; [|now repeat split].
  unfold fetch_recent_gdacs_events, fetch_gdacs_events, http_get.
  destruct (upstream (http_gets w)) as [|data]; cbn [fst]; [reflexivity|].
  destruct (py_iter (unwrap_results data)) as [e|records]; [reflexivity|].
  rewrite normalize_recent_filter.
  destruct (normalize_all now records) as [e|evs]; [reflexivity|].
  f_equal. apply List.filter_ext. intros event. apply is_recent_utc.
Qed.

End Feed.

(** ** The timestamp aliases *)

Section Timestamps.
Context {rt : PyRuntime}.

Lemma probe_timestamp_pass (fields : list string) (ev : gmap string pyval)
    (ts_field : string) :
  alias_passed ev ts_field →
  probe_timestamp (ts_field :: fields) ev = probe_timestamp fields ev.
Proof.
  intros [Hf|(s & Hs & Hp)]; cbn [probe_timestamp].
  - now rewrite Hf.
  - rewrite Hs. cbn [parse_ts_value]. rewrite Hp.
    now destruct (truthy (PyStr s)).
Qed.

Lemma probe_timestamp_passes (pre fields : list string) (ev : gmap string pyval) :
  Forall (alias_passed ev) pre →
  probe_timestamp (pre ++ fields) ev = probe_timestamp fields ev.
Proof.
  induction 1 as [|f pre Hf _ IH]; [reflexivity|].
  cbn [app]. now rewrite probe_timestamp_pass.
Qed.

(** X4. The timestamp aliases are tried in order and the first one that is
    truthy decides, unless it is a string that does not parse, which moves
    on to the next alias.  After aliases that are missing, falsy or
    unparseable strings: a string that parses gives its timestamp, whatever
    the later aliases hold; a truthy list or dictionary ends the search
    with no timestamp, so that the later aliases are never consulted; and
    when every alias is passed there is no timestamp. *)
Theorem probe_timestamp_first_truthy (pre post : list string) (ts_field : string)
    (ev : gmap string pyval) :
  Forall (alias_passed ev) pre →
  (∀ s dt, dict_get ev ts_field = PyStr s → s ≠ "" →
     fromisoformat (replace_Z s) = Some dt →
     probe_timestamp (pre ++ ts_field :: post) ev = inr (Some (isoformat dt))) ∧
  (∀ v, dict_get ev ts_field = v → truthy v = true →
     (∃ xs, v = PyList xs) ∨ (∃ d, v = PyDict d) →
     probe_timestamp (pre ++ ts_field :: post) ev = inr None) ∧
  (alias_passed ev ts_field → Forall (alias_passed ev) post →
     probe_timestamp (pre ++ ts_field :: post) ev = inr None).
Proof.
  intros Hpre. rewrite (probe_timestamp_passes pre _ ev Hpre). repeat split.
  - intros s dt Hs Hne Hp. cbn [probe_timestamp]. rewrite Hs.
    cbn [truthy parse_ts_value]. rewrite Hp.
    destruct (String.eqb_spec s ""); [contradiction|reflexivity].
  - intros v Hv Ht Hshape. cbn [probe_timestamp]. rewrite Hv, Ht.
    now destruct Hshape as [[xs ->]|[d ->]].
  - intros Hf Hpost. rewrite probe_timestamp_pass by assumption.
    rewrite <- (app_nil_r post). now rewrite probe_timestamp_passes.
Qed.

End Timestamps.

(** ** The cache and resync manager *)

Section CacheInvariants.
Context {rt : PyRuntime}.

(** X5. Every fetch tick, whatever the feed answers, does one of two
    things: it sets the failure counter to 0 and [last_update] to now, or it
    adds one to the counter and leaves the cached events and [last_update] as
    they were.  It never touches the alert log or the throttle state, and it
    issues one request, or two when the process was degraded. *)
Theorem safe_update_events_dichotomy (upstream : nat → response) (now : datetime)
    (w : World) :
  let w' := safe_update_events upstream now w in
  ALERTS w' = ALERTS w ∧
  LAST_ALERT w' = LAST_ALERT w ∧
  (http_gets w' = S (http_gets w) ∨
   (http_gets w' = S (S (http_gets w)) ∧ 1 < consecutive_failures (CACHE w))) ∧
  ((consecutive_failures (CACHE w') = 0 ∧
    last_update (CACHE w') = Some (isoformat now)) ∨
   CACHE w' = {| last_update := last_update (CACHE w);
                 events := events (CACHE w);
                 consecutive_failures := consecutive_failures (CACHE w) + 1 |}).
Proof.
  cbn zeta. rewrite safe_update_events_unfold. cbn zeta.
  destruct (fetch_disaster_data upstream now w).1 as [x|events0].
  { repeat split; auto. }
  destruct (Z.ltb_spec 1 (consecutive_failures (CACHE w))) as [Hdeg|Hlive].
  - destruct (fetch_recent_gdacs_events _ _ _ _).1 as [x|recent_events];
      repeat split; auto.
  - repeat split; auto.
Qed.

Lemma ticks_S (n : nat) (upstream : nat → response) (now : datetime) (w : World) :
  ticks (S n) upstream now w =
  safe_update_events upstream now (ticks n upstream now w).
Proof.
  revert w. induction n as [|n IH]; intros w; [reflexivity|].
  change (ticks (S (S n)) upstream now w)
    with (ticks (S n) upstream now (safe_update_events upstream now w)).
  rewrite IH. reflexivity.
Qed.

(** X6. While the processing of the feed's answer raises at every tick, the
    failure counter counts the ticks and the cache is served unchanged:
    after [n] such ticks the counter has grown by [n] and the events and
    [last_update] are those from before; the health endpoint reports the
    offline mode from the second consecutive failure on. *)
Theorem raising_ticks_count (upstream : nat → response) (now : datetime)
    (w : World) (USERS : Users) (n : nat) :
  (∀ w', ∃ x, (fetch_disaster_data upstream now w').1 = inl x) →
  CACHE (ticks n upstream now w) =
    {| last_update := last_update (CACHE w);
       events := events (CACHE w);
       consecutive_failures := consecutive_failures (CACHE w) + Z.of_nat n |} ∧
  (consecutive_failures (CACHE w) = 0 →
   health_offline_mode (health_check USERS (ticks n upstream now w)) = (2 <=? n)%nat).
Proof.
  intros Hraise.
  assert (Hc : CACHE (ticks n upstream now w) =
    {| last_update := last_update (CACHE w);
       events := events (CACHE w);
       consecutive_failures := consecutive_failures (CACHE w) + Z.of_nat n |}).
  { induction n as [|n IH].
    - cbn [ticks]. destruct (CACHE w). cbn. f_equal. lia.
    - rewrite ticks_S. destruct (Hraise (ticks n upstream now w)) as [x Hx].
      rewrite (safe_update_events_raise _ _ _ x Hx), IH. cbn. f_equal. lia. }
  split; [exact Hc|].
  intros H0. unfold health_check. cbn [health_offline_mode]. rewrite Hc.
  cbn [consecutive_failures]. rewrite H0.
  destruct (Z.ltb_spec 1 (0 + Z.of_nat n)), (Nat.leb_spec 2 n); try reflexivity; lia.
Qed.

End CacheInvariants.

(** Three ticks on a payload that cannot be iterated: the counter reaches 3
    and the cached event is still served. *)
Lemma raising_ticks_count_witness :
  CACHE (ticks (rt := Sample.runtime) 3 (λ _, HttpJson PyNone) (utc t_noon) world_live) =
    {| last_update := Some "2024-03-01T00:00:00+00:00"; events := [event_A];
       consecutive_failures := 3 |}.
Proof.
  assert (Hraise : ∀ w', ∃ x,
    (fetch_disaster_data (rt := Sample.runtime) (λ _, HttpJson PyNone)
       (utc t_noon) w').1 = inl x).
  { intros w'. exists TypeError. reflexivity. }
  destruct (raising_ticks_count (rt := Sample.runtime) (λ _, HttpJson PyNone)
              (utc t_noon) world_live [] 3 Hraise) as [Hc _].
  rewrite Hc. reflexivity.
Defined.

(** ** The alert throttle *)

Section ThrottleMore.
Context {rt : PyRuntime}.

(** [should_send_alert] as a decision on the stored timestamp followed by a
    stamp. *)
Lemma should_send_alert_decision (t : Z) (user_id : string) (min_hours : Z) (w : World) :
  should_send_alert (utc t) user_id min_hours w =
  (throttle_allows t min_hours (LAST_ALERT w !! user_id),
   if throttle_allows t min_hours (LAST_ALERT w !! user_id)
   then stamped t user_id w else w).
Proof.
  rewrite should_send_alert_utc. unfold throttle_allows.
  destruct (LAST_ALERT w !! user_id) as [last_str|]; [|reflexivity].
  destruct (String.eqb last_str ""); [reflexivity|].
  destruct (fromisoformat (replace_Z last_str)) as [last|]; [|reflexivity].
  now destruct (timedelta_hours min_hours <? t - instant last).
Qed.

Lemma throttle_allows_stamp (t t2 min_hours : Z) (dt : datetime) :
  isoformat (utc t) ≠ "" →
  fromisoformat (replace_Z (isoformat (utc t))) = Some dt →
  instant dt = t →
  throttle_allows t2 min_hours (Some (isoformat (utc t)))
  = (timedelta_hours min_hours <? t2 - t).
Proof.
  intros Hne Hback Hinst. unfold throttle_allows.
  destruct (String.eqb_spec (isoformat (utc t)) ""); [contradiction|].
  now rewrite Hback, Hinst.
Qed.

Lemma stamped_lookup (t : Z) (user_id : string) (w : World) :
  LAST_ALERT (stamped t user_id w) !! user_id = Some (isoformat (utc t)).
Proof. unfold stamped. cbn [LAST_ALERT set_LAST_ALERT]. apply lookup_insert_eq. Qed.

Lemma stamped_lookup_ne (t : Z) (user_id other : string) (w : World) :
  user_id ≠ other →
  LAST_ALERT (stamped t user_id w) !! other = LAST_ALERT w !! other.
Proof.
  intros H. unfold stamped. cbn [LAST_ALERT set_LAST_ALERT]. now apply lookup_insert_ne.
Qed.

(** X7. The cooldown restarts on every allowed alert and only then: after a
    call allowed at [t], from any state, a call at [t2] is allowed exactly
    when more than [min_hours] hours have passed since [t]; a denied call
    changes nothing, so that a third call is again measured from [t].  (The
    timestamp written at [t] is assumed to read back.) *)
Theorem should_send_alert_cooldown (t t2 t3 : Z) (user_id : string) (min_hours : Z)
    (w : World) (dt : datetime) :
  (should_send_alert (utc t) user_id min_hours w).1 = true →
  isoformat (utc t) ≠ "" →
  fromisoformat (replace_Z (isoformat (utc t))) = Some dt →
  instant dt = t →
  let w1 := (should_send_alert (utc t) user_id min_hours w).2 in
  let r2 := should_send_alert (utc t2) user_id min_hours w1 in
  (r2.1 = true ↔ timedelta_hours min_hours < t2 - t) ∧
  (r2.1 = false →
     r2.2 = w1 ∧
     ((should_send_alert (utc t3) user_id min_hours r2.2).1 = true
      ↔ timedelta_hours min_hours < t3 - t)).
Proof.
  intros Hallow Hne Hback Hinst. cbn zeta.
  rewrite (should_send_alert_decision t) in *. cbn [fst snd] in *.
  rewrite Hallow. rewrite !should_send_alert_decision. cbn [fst snd].
  rewrite stamped_lookup, (throttle_allows_stamp t t2 min_hours dt Hne Hback Hinst).
  split; [apply Z.ltb_lt|].
  intros Hdenied. rewrite Hdenied. split; [reflexivity|].
  rewrite stamped_lookup, (throttle_allows_stamp t t3 min_hours dt Hne Hback Hinst).
  apply Z.ltb_lt.
Qed.

Lemma stamped_comm (t1 t2 : Z) (u1 u2 : string) (w : World) :
  u1 ≠ u2 →
  stamped t1 u1 (stamped t2 u2 w) = stamped t2 u2 (stamped t1 u1 w).
Proof.
  intros H. unfold stamped, set_LAST_ALERT. cbn [CACHE ALERTS LAST_ALERT http_gets].
  f_equal. now apply insert_insert_ne.
Qed.

(** X8. The throttles of two different users are independent: calls for
    them can be made in either order, at any instants, with the same two
    answers and the same final state. *)
Theorem should_send_alert_independent (t1 t2 : Z) (u1 u2 : string) (min_hours : Z)
    (w : World) :
  u1 ≠ u2 →
  let a := should_send_alert (utc t1) u1 min_hours w in
  let b := should_send_alert (utc t2) u2 min_hours a.2 in
  let b' := should_send_alert (utc t2) u2 min_hours w in
  let a' := should_send_alert (utc t1) u1 min_hours b'.2 in
  a.1 = a'.1 ∧ b.1 = b'.1 ∧ b.2 = a'.2.
Proof.
  intros Hne. cbn zeta. rewrite !should_send_alert_decision. cbn [fst snd].
  assert (H1 : LAST_ALERT (if throttle_allows t2 min_hours (LAST_ALERT w !! u2)
                           then stamped t2 u2 w else w) !! u1 = LAST_ALERT w !! u1).
  { destruct (throttle_allows t2 _ _); [|reflexivity].
    apply stamped_lookup_ne. congruence. }
  assert (H2 : LAST_ALERT (if throttle_allows t1 min_hours (LAST_ALERT w !! u1)
                           then stamped t1 u1 w else w) !! u2 = LAST_ALERT w !! u2).
  { destruct (throttle_allows t1 _ _); [|reflexivity].
    now apply stamped_lookup_ne. }
  rewrite H1, H2. repeat split.
  destruct (throttle_allows t1 _ _), (throttle_allows t2 _ _); try reflexivity.
  apply stamped_comm. congruence.
Qed.

End ThrottleMore.

(** A user last alerted a month ago is alerted at noon, denied an hour
    later, and alerted again seven hours after noon. *)
Lemma should_send_alert_cooldown_witness :
  (should_send_alert (rt := Sample.runtime) (utc t_noon) "u1" default_min_hours
     world_alerted).1 = true ∧
  (should_send_alert (rt := Sample.runtime) (utc (t_noon + us_per_hour)) "u1"
     default_min_hours
     (should_send_alert (rt := Sample.runtime) (utc t_noon) "u1" default_min_hours
        world_alerted).2).1 = false ∧
  (should_send_alert (rt := Sample.runtime) (utc (t_noon + 7 * us_per_hour)) "u1"
     default_min_hours
     (should_send_alert (rt := Sample.runtime) (utc (t_noon + us_per_hour)) "u1"
        default_min_hours
        (should_send_alert (rt := Sample.runtime) (utc t_noon) "u1" default_min_hours
           world_alerted).2).2).1 = true.
Proof.
  assert (Hallow : (should_send_alert (rt := Sample.runtime) (utc t_noon) "u1"
                      default_min_hours world_alerted).1 = true)
    by (vm_compute; reflexivity).
  assert (Hne : isoformat (PyRuntime := Sample.runtime) (utc t_noon) ≠ "")
    by (vm_compute; discriminate).
  assert (Hback : fromisoformat (PyRuntime := Sample.runtime)
                    (replace_Z (isoformat (PyRuntime := Sample.runtime) (utc t_noon)))
                  = Some (utc t_noon)) by (vm_compute; reflexivity).
  assert (Hinst : instant (utc t_noon) = t_noon) by (vm_compute; reflexivity).
  destruct (should_send_alert_cooldown (rt := Sample.runtime)
              t_noon (t_noon + us_per_hour) (t_noon + 7 * us_per_hour)
              "u1" default_min_hours world_alerted (utc t_noon)
              Hallow Hne Hback Hinst) as [Hsecond Hthird].
  assert (Hdenied : (should_send_alert (rt := Sample.runtime)
                       (utc (t_noon + us_per_hour)) "u1" default_min_hours
                       (should_send_alert (rt := Sample.runtime) (utc t_noon) "u1"
                          default_min_hours world_alerted).2).1 = false).
  { apply not_true_is_false. intros Htrue. apply Hsecond in Htrue.
    vm_compute in Htrue. discriminate. }
  split; [exact Hallow|]. split; [exact Hdenied|].
  destruct (Hthird Hdenied) as [_ Hiff]. apply Hiff. vm_compute. reflexivity.
Defined.

Lemma should_send_alert_independent_witness :
  (should_send_alert (rt := Sample.runtime) (utc (t_noon + us_per_hour)) "u2"
     default_min_hours
     (should_send_alert (rt := Sample.runtime) (utc t_noon) "u1" default_min_hours
        world_alerted).2).2 =
  (should_send_alert (rt := Sample.runtime) (utc t_noon) "u1" default_min_hours
     (should_send_alert (rt := Sample.runtime) (utc (t_noon + us_per_hour)) "u2"
        default_min_hours world_alerted).2).2.
Proof.
  assert (Hne : "u1" ≠ "u2") by discriminate.
  exact (proj2 (proj2 (should_send_alert_independent (rt := Sample.runtime)
           t_noon (t_noon + us_per_hour) "u1" "u2" default_min_hours
           world_alerted Hne))).
Defined.

(** ** The alert log endpoint *)

Lemma get_alerts_drop (limit : Z) (w : World) :
  0 < limit →
  (get_alerts limit w).1 =
  drop (length (ALERTS w) - Z.to_nat (Z.min limit 1000))%nat (ALERTS w).
Proof.
  intros H. unfold get_alerts. destruct (Z.leb_spec limit 0) as [?|_]; [lia|].
  cbn [fst]. rewrite slice_from_neg by (destruct (1000 <? limit); lia).
  do 2 f_equal. destruct (Z.ltb_spec 1000 limit); f_equal; lia.
Qed.

(** X9. A larger limit only adds older entries in front: for
    [0 < n ≤ m] the answer to [limit = n] is the tail of the answer to
    [limit = m].  And the entry appended last to the log is the last entry
    of every non-empty answer, the whole answer for [limit = 1]. *)
Theorem get_alerts_nested (n m : Z) (w : World) (alert : pyval) :
  0 < n ≤ m →
  (∃ older, (get_alerts m w).1 = (older ++ (get_alerts n w).1)%list) ∧
  (∃ older, (get_alerts n (set_ALERTS (ALERTS w ++ [alert]) w)).1
            = (older ++ [alert])%list) ∧
  (get_alerts 1 (set_ALERTS (ALERTS w ++ [alert]) w)).1 = [alert].
Proof.
  intros [Hn Hm]. rewrite !get_alerts_drop by lia.
  set (l := ALERTS w).
  set (kn := Z.to_nat (Z.min n 1000)). set (km := Z.to_nat (Z.min m 1000)).
  assert (Hk : (1 ≤ kn ≤ km)%nat) by (subst kn km; lia).
  cbn [ALERTS set_ALERTS]. repeat split.
  - exists (take ((length l - kn) - (length l - km))%nat (drop (length l - km)%nat l)).
    rewrite <- (take_drop ((length l - kn) - (length l - km))%nat
                  (drop (length l - km)%nat l)) at 1.
    f_equal. rewrite drop_drop. f_equal. lia.
  - exists (drop (length (l ++ [alert]) - kn)%nat l).
    rewrite drop_app_le by (rewrite length_app; simpl; lia). reflexivity.
  - rewrite length_app. cbn [length]. 
    replace (length l + 1 - Z.to_nat (Z.min 1 1000))%nat with (length l) by lia.
    now rewrite drop_app_length.
Qed.

Lemma get_alerts_nested_witness :
  (get_alerts 1 (set_ALERTS (ALERTS world0 ++ [PyInt 7]) world0)).1 = [PyInt 7].
Proof.
  assert (H : 0 < 1 ≤ 2) by lia.
  exact (proj2 (proj2 (get_alerts_nested 1 2 world0 (PyInt 7) H))).
Defined.

(** ** The alert history and the manual alert *)

Lemma alerts_of_filter (user_id : string) (alerts : list pyval) :
  alerts_of user_id alerts =
  if forallb is_dict alerts then inr (List.filter (alert_of_user user_id) alerts)
  else inl AttributeError.
Proof.
  induction alerts as [|a alerts IH]; [reflexivity|].
  destruct a; try reflexivity. cbn [alerts_of forallb is_dict andb List.filter].
  rewrite IH. destruct (forallb is_dict alerts); [|reflexivity].
  cbn [alert_of_user]. now destruct (py_eq_str _ _).
Qed.

(** X10. [get_alert_history] answers the whole log, with its length as the
    count, when no user id is given and also when the user id is the empty
    string.  For a non-empty user id it answers, in stored order, exactly the
    entries whose ["user_id"] is that string, with their number as the count,
    provided every entry of the log is a dictionary; otherwise it raises. *)
Theorem get_alert_history_filter (user_id : string) (w : World) :
  get_alert_history None w =
    inr {| hist_user_id := None; hist_count := length (ALERTS w);
           hist_alerts := ALERTS w |} ∧
  get_alert_history (Some "") w = get_alert_history None w ∧
  (user_id ≠ "" →
   get_alert_history (Some user_id) w =
   if forallb is_dict (ALERTS w)
   then inr {| hist_user_id := Some user_id;
               hist_count := length (List.filter (alert_of_user user_id) (ALERTS w));
               hist_alerts := List.filter (alert_of_user user_id) (ALERTS w) |}
   else inl AttributeError).
Proof.
  repeat split. intros Hne. unfold get_alert_history.
  destruct (String.eqb_spec user_id ""); [contradiction|]. cbn [negb].
  rewrite alerts_of_filter. now destruct (forallb is_dict (ALERTS w)).
Qed.

Section Push.
Context {rt : PyRuntime}.

Lemma truthy_dict (d : gmap string pyval) : truthy (PyDict d) = false ↔ d = ∅.
Proof.
  cbn [truthy]. rewrite <- map_to_list_empty_iff.
  destruct (map_to_list d); split; congruence.
Qed.

Lemma push_payload_user (now : datetime) (req : PushNotificationRequest)
    (user : gmap string pyval) (user_id : string) :
  alert_of_user user_id (push_payload now req user)
  = String.eqb (push_user_id req) user_id.
Proof.
  unfold push_payload, alert_of_user, dict_get. now rewrite lookup_insert_eq.
Qed.

(** X11. [push_notification] fails with status 404, changing nothing, when
    the user is unknown or stored as an empty dictionary.  Otherwise it
    appends exactly one alert, the one it answers with, and touches nothing
    else; that alert is then the answer of [get_alerts] with limit 1, the last
    entry of the user's own history, and absent from every other user's
    history. *)
Theorem push_notification_recorded (now : datetime) (req : PushNotificationRequest)
    (USERS : Users) (w : World) :
  (users_get USERS (push_user_id req) = None ∨
   users_get USERS (push_user_id req) = Some ∅ →
   push_notification now req USERS w = (inl 404, w)) ∧
  (∀ user, users_get USERS (push_user_id req) = Some user → user ≠ ∅ →
     let alert := push_payload now req user in
     let w' := (push_notification now req USERS w).2 in
     (push_notification now req USERS w).1 = inr alert ∧
     w' = set_ALERTS (ALERTS w ++ [alert]) w ∧
     (get_alerts 1 w').1 = [alert] ∧
     (∀ user_id,
        List.filter (alert_of_user user_id) (ALERTS w') =
        (List.filter (alert_of_user user_id) (ALERTS w) ++
         if String.eqb (push_user_id req) user_id then [alert] else [])%list)).
Proof.
  split.
  - unfold push_notification. intros [->| ->]; reflexivity.
  - intros user Hget Hne. cbn zeta. unfold push_notification. rewrite Hget.
    destruct (truthy (PyDict user)) eqn:Ht.
    2:{ apply truthy_dict in Ht. contradiction. }
    cbn [negb fst snd]. repeat split.
    + rewrite get_alerts_drop by lia. cbn [ALERTS set_ALERTS].
      rewrite length_app. cbn [length].
      replace (length (ALERTS w) + 1 - Z.to_nat (Z.min 1 1000))%nat
        with (length (ALERTS w)) by lia.
      now rewrite drop_app_length.
    + intros user_id. cbn [ALERTS set_ALERTS]. rewrite List.filter_app.
      cbn [List.filter]. rewrite push_payload_user.
      now destruct (String.eqb (push_user_id req) user_id).
Qed.

End Push.

(** ** Geolocation and subscription *)

Section Subscription.
Context {rt : PyRuntime}.

Lemma prefix_app (p s : string) : String.prefix p (p +:+ s) = true.
Proof. apply prefix_spec. now exists s. Qed.

(** X12. [get_user_location_from_ip] makes no lookup and answers nothing for
    the loopback names and for every address starting with ["192.168."] or
    ["10."].  For any other address it makes exactly one lookup, and answers
    coordinates exactly when the service returned a JSON object whose
    [latitude] and [longitude] [float] accepts, those floats being the
    answer. *)
Theorem get_user_location_from_ip_cases (geo : string → response) (ip : string)
    (n : nat) :
  (∀ s, get_user_location_from_ip geo ("192.168." +:+ s) n = (None, n) ∧
        get_user_location_from_ip geo ("10." +:+ s) n = (None, n)) ∧
  (ip ∈ ["127.0.0.1"; "localhost"; "::1"] →
   get_user_location_from_ip geo ip n = (None, n)) ∧
  (is_local_address ip = false →
   (get_user_location_from_ip geo ip n).2 = S n ∧
   ∀ lat lon,
     (get_user_location_from_ip geo ip n).1 = Some (lat, lon) ↔
     ∃ data, geo ip = HttpJson (PyDict data) ∧
             py_float (dict_get data "latitude") = inr lat ∧
             py_float (dict_get data "longitude") = inr lon).
Proof.
  split; [|split].
  - intros s. unfold get_user_location_from_ip, is_local_address.
    rewrite !prefix_app, !orb_true_r. now rewrite orb_true_l.
  - intros Hin. unfold get_user_location_from_ip.
    repeat (apply elem_of_cons in Hin as [->|Hin]); try reflexivity.
    now apply elem_of_nil in Hin.
  - intros Hlocal. unfold get_user_location_from_ip. rewrite Hlocal. cbn [fst snd].
    split; [reflexivity|]. intros lat lon. split.
    + destruct (geo ip) as [|data]; [discriminate|].
      destruct data; try discriminate.
      destruct (is_none (dict_get d "latitude")); [discriminate|].
      destruct (is_none (dict_get d "longitude")); [discriminate|]. cbn [negb andb].
      destruct (py_float (dict_get d "latitude")) as [|a] eqn:Ea; [discriminate|].
      destruct (py_float (dict_get d "longitude")) as [|b] eqn:Eb; [discriminate|].
      intros [= <- <-]. now exists d.
    + intros (data & -> & Ea & Eb).
      rewrite (py_float_not_none _ _ Ea), (py_float_not_none _ _ Eb). cbn [negb andb].
      now rewrite Ea, Eb.
Qed.

Lemma users_get_set (USERS : Users) (user_id k : string) (user : gmap string pyval) :
  users_get (users_set USERS user_id user) k =
  if String.eqb user_id k then Some user else users_get USERS k.
Proof.
  induction USERS as [|[k' u] USERS IH]; cbn [users_set users_get].
  - reflexivity.
  - destruct (String.eqb_spec k' user_id) as [->|Hne]; cbn [users_get].
    + destruct (String.eqb_spec user_id k); reflexivity.
    + rewrite IH. destruct (String.eqb_spec k' k) as [->|]; [|reflexivity].
      destruct (String.eqb_spec user_id k); [congruence|reflexivity].
Qed.

Lemma users_set_keys (USERS : Users) (user_id : string) (user : gmap string pyval) :
  (users_set USERS user_id user).*1 =
  match users_get USERS user_id with
  | Some _ => USERS.*1
  | None => (USERS.*1 ++ [user_id])%list
  end.
Proof.
  induction USERS as [|[k' u] USERS IH]; cbn [users_set users_get]; [reflexivity|].
  destruct (String.eqb_spec k' user_id) as [->|Hne]; [reflexivity|].
  cbn [fmap list_fmap]. cbn [fmap list_fmap] in IH. rewrite IH.
  now destruct (users_get USERS user_id).
Qed.

(** X13. [subscribe_user] stores the subscriber under its id, where a
    lookup finds it again, and leaves every other subscriber as it was; a
    known id keeps its place in the registry and a new one is added at the
    end.  Coordinates given in the request are stored as given, and when
    both are given no geolocation lookup is made; without a client address,
    or from a local one, no lookup is made either and a coordinate that is
    not given is the default (39.8283, -98.5795). *)
Theorem subscribe_user_registry (geo : string → response) (now : datetime)
    (req : SubscribeRequest) (client_ip : option string) (USERS : Users) (n : nat) :
  let r := subscribe_user geo now req client_ip USERS n in
  let user := r.1.1 in
  let USERS' := r.1.2 in
  users_get USERS' (sub_user_id req) = Some user ∧
  (∀ k, k ≠ sub_user_id req → users_get USERS' k = users_get USERS k) ∧
  USERS'.*1 = match users_get USERS (sub_user_id req) with
              | Some _ => USERS.*1
              | None => (USERS.*1 ++ [sub_user_id req])%list
              end ∧
  user !! "user_id" = Some (PyStr (sub_user_id req)) ∧
  user !! "name" = Some (PyStr (sub_name req)) ∧
  (∀ lat, sub_lat req = Some lat → user !! "lat" = Some (PyFloat lat)) ∧
  (∀ lon, sub_lon req = Some lon → user !! "lon" = Some (PyFloat lon)) ∧
  (is_Some (sub_lat req) → is_Some (sub_lon req) → r.2 = n) ∧
  (client_ip = None ∨ client_ip = Some "" ∨
   (∃ ip, client_ip = Some ip ∧ is_local_address ip = true) →
   r.2 = n ∧
   (sub_lat req = None → user !! "lat" = Some (PyFloat f_default_lat)) ∧
   (sub_lon req = None → user !! "lon" = Some (PyFloat f_default_lon))).
Proof.
  cbn zeta. unfold subscribe_user.
  destruct (resolve_coordinates geo req client_ip n) as [[lat lon] n'] eqn:Hres.
  cbn [fst snd].
  split. { rewrite users_get_set. now rewrite String.eqb_refl. }
  split. { intros k Hk. rewrite users_get_set.
           destruct (String.eqb_spec (sub_user_id req) k); [congruence|reflexivity]. }
  split. { apply users_set_keys. }
  split; [reflexivity|]. split; [reflexivity|].
  unfold resolve_coordinates in Hres.
  split; [|split; [|split]].
  - intros a Ha. rewrite Ha in Hres. unfold user_record.
    rewrite !lookup_insert_ne, lookup_insert_eq by discriminate.
    destruct (sub_lon req) as [b|].
    + now injection Hres as <- _ _.
    + destruct (match client_ip with Some ip => _ | None => _ end) as [[[la lo]|] m];
        now injection Hres as <- _ _.
  - intros b Hb. rewrite Hb in Hres. unfold user_record.
    rewrite !lookup_insert_ne, lookup_insert_eq by discriminate.
    destruct (sub_lat req) as [a|].
    + now injection Hres as _ <- _.
    + destruct (match client_ip with Some ip => _ | None => _ end) as [[[la lo]|] m];
        now injection Hres as _ <- _.
  - intros [a Ha] [b Hb]. rewrite Ha, Hb in Hres. now injection Hres as _ _ <-.
  - intros Hlocal.
    assert (Hloc : match client_ip with
                   | Some ip =>
                       if negb (String.eqb ip "") then get_user_location_from_ip geo ip n
                       else (None, n)
                   | None => (None, n)
                   end = (None, n)).
    { destruct Hlocal as [->|[->|(ip & -> & Hl)]]; try reflexivity.
      destruct (negb (String.eqb ip "")); [|reflexivity].
      unfold get_user_location_from_ip. now rewrite Hl. }
    rewrite Hloc in Hres. unfold user_record.
    destruct (sub_lat req) as [a|], (sub_lon req) as [b|];
      injection Hres as <- <- <-; repeat split; try discriminate;
      intros _; now rewrite !lookup_insert_ne, lookup_insert_eq by discriminate.
Qed.

End Subscription.

(** ** The alert dispatcher *)

Lemma categorize_risk_values (d : float) (disaster_type risk : string) :
  categorize_risk d disaster_type = Some risk →
  risk ∈ ["High"; "Moderate"; "Low"].
Proof.
  unfold categorize_risk.
  repeat match goal with
         | |- context [if ?c then _ else _] => destruct c
         end; intros [= <-]; set_solver.
Qed.

Section Dispatcher.
Context {rt : PyRuntime}.
Variable distance_miles : pyval * pyval → float * float → option float.

Lemma alert_payload_fields (t : Z) (user : gmap string pyval) (event : Event)
    (risk : string) (alert : pyval) :
  alert_payload (utc t) user event risk = Some alert →
  ∃ d, alert = PyDict d ∧
       d !! "risk_level" = Some (PyStr risk) ∧
       d !! "proximity_level" = Some (PyStr (classify_proximity risk)) ∧
       d !! "event_id" = Some (PyStr (ev_id event)) ∧
       d !! "disaster_type" = Some (PyStr (ev_type event)) ∧
       d !! "timestamp" = Some (PyStr (isoformat (utc t))).
Proof.
  unfold alert_payload.
  destruct (classify_alert_level (utc t) (PyStr (ev_timestamp event)))
    as [x|[level desc]]; [discriminate|].
  destruct (user !! "user_id") as [uid|]; [|discriminate].
  destruct (user !! "name") as [name|]; [|discriminate].
  cbn [mbind option_bind]. intros [= <-]. eexists. split; [reflexivity|].
  repeat split; now simplify_map_eq.
Qed.

(** One pass of the inner loop body: nothing happens, or the throttle
    allowed the user and the user is stamped, with or without an alert. *)
Lemma process_pair_step (t : Z) (event : Event) (user_id : string)
    (user : gmap string pyval) (w : World) :
  let w' := process_pair distance_miles (utc t) event user_id user w in
  w' = w ∨
  (throttle_allows t default_min_hours (LAST_ALERT w !! user_id) = true ∧
   ∃ risk, risk ∈ ["High"; "Moderate"; "Low"] ∧
     (w' = stamped t user_id w ∨
      ∃ alert, alert_payload (utc t) user event risk = Some alert ∧
               w' = set_ALERTS (ALERTS w ++ [alert]) (stamped t user_id w))).
Proof.
  cbn zeta. unfold process_pair.
  destruct (is_none (dict_get user "lat") || is_none (dict_get user "lon")); [now left|].
  destruct (py_float (dict_get user "lat")); [now left|].
  destruct (py_float (dict_get user "lon")); [now left|].
  destruct (distance_miles _ _) as [dist|]; [|now left].
  destruct (categorize_risk dist (ev_type event)) as [risk|] eqn:Hrisk; [|now left].
  rewrite should_send_alert_decision.
  destruct (throttle_allows t default_min_hours (LAST_ALERT w !! user_id)); [|now left].
  right. split; [reflexivity|]. exists risk.
  split; [exact (categorize_risk_values _ _ _ Hrisk)|].
  unfold send_alert.
  destruct (alert_payload (utc t) user event risk) as [alert|]; cbn; [right|now left].
  now exists alert.
Qed.

Lemma pass_from_refl (t : Z) evs keys (w : World) : pass_from t evs keys w w.
Proof.
  repeat split; auto. exists []. split; [now rewrite app_nil_r|constructor].
Qed.

Lemma pass_from_trans (t : Z) evs keys (w1 w2 w3 : World) :
  pass_from t evs keys w1 w2 → pass_from t evs keys w2 w3 → pass_from t evs keys w1 w3.
Proof.
  intros (Hc1 & Hh1 & (n1 & Ha1 & Hf1) & Hk1 & Hl1)
         (Hc2 & Hh2 & (n2 & Ha2 & Hf2) & Hk2 & Hl2).
  repeat split; try congruence.
  - exists (n1 ++ n2)%list. split; [|now apply Forall_app].
    now rewrite Ha2, Ha1, app_assoc.
  - intros k Hk. now rewrite Hk2, Hk1.
  - intros k. destruct (Hl2 k) as [-> | ->]; [apply Hl1|now right].
Qed.

Lemma pass_from_stamped (t : Z) evs keys (user_id : string) (w : World) :
  user_id ∈ keys → pass_from t evs keys w (stamped t user_id w).
Proof.
  intros Hin. repeat split.
  - exists []. split; [now rewrite app_nil_r|constructor].
  - intros k Hk. apply stamped_lookup_ne. intros ->. contradiction.
  - intros k. destruct (decide (user_id = k)) as [-> |Hne].
    + right. apply stamped_lookup.
    + left. now apply stamped_lookup_ne.
Qed.

Lemma classify_proximity_known (risk : string) :
  risk ∈ ["High"; "Moderate"; "Low"] → classify_proximity risk ≠ "Unknown".
Proof.
  intros H. repeat (apply elem_of_cons in H as [-> |H]); try discriminate.
  now apply elem_of_nil in H.
Qed.

Lemma process_pair_pass (t : Z) evs keys (event : Event) (user_id : string)
    (user : gmap string pyval) (w : World) :
  event ∈ evs → user_id ∈ keys →
  pass_from t evs keys w (process_pair distance_miles (utc t) event user_id user w).
Proof.
  intros Hev Hu.
  destruct (process_pair_step t event user_id user w)
    as [-> |(_ & risk & Hrisk & [-> |(alert & Hpay & ->)])].
  - apply pass_from_refl.
  - now apply pass_from_stamped.
  - apply (pass_from_trans t evs keys w (stamped t user_id w));
      [exact (pass_from_stamped t evs keys user_id w Hu)|].
    repeat split; auto. exists [alert]. split; [reflexivity|].
    constructor; [|constructor].
    destruct (alert_payload_fields t user event risk alert Hpay)
      as (d & -> & H1 & H2 & H3 & H4 & H5).
    exists d, event, risk. repeat split; auto.
    now apply classify_proximity_known.
Qed.

Lemma process_users_pass (t : Z) evs keys (event : Event) (USERS : Users) (w : World) :
  event ∈ evs → USERS.*1 ⊆ keys →
  pass_from t evs keys w (process_users distance_miles (utc t) event USERS w).
Proof.
  intros Hev. revert w. induction USERS as [|[user_id user] USERS IH]; intros w Hsub.
  - apply pass_from_refl.
  - cbn [process_users]. eapply pass_from_trans.
    + apply process_pair_pass; [exact Hev|]. apply Hsub. cbn. apply list_elem_of_here.
    + apply IH. intros k Hk. apply Hsub. cbn. now apply list_elem_of_further.
Qed.

Lemma process_events_pass (t : Z) evs keys (some : list Event) (USERS : Users)
    (w : World) :
  some ⊆ evs → USERS.*1 ⊆ keys →
  pass_from t evs keys w (process_events distance_miles (utc t) some USERS w).
Proof.
  revert w. induction some as [|event some IH]; intros w Hsome Hsub.
  - apply pass_from_refl.
  - cbn [process_events]. eapply pass_from_trans.
    + apply process_users_pass; [|exact Hsub]. apply Hsome. apply list_elem_of_here.
    + apply IH; [|exact Hsub]. intros e He. apply Hsome. now apply list_elem_of_further.
Qed.

Lemma process_events_for_users_eq (now : datetime) (USERS : Users) (w : World) :
  process_events_for_users distance_miles now USERS w =
  process_events distance_miles now (events (CACHE w)) USERS w.
Proof. unfold process_events_for_users. now destruct (events (CACHE w)). Qed.

Lemma process_users_nil (now : datetime) (evs : list Event) (w : World) :
  process_events distance_miles now evs [] w = w.
Proof. induction evs; [reflexivity|exact IHevs]. Qed.

(** X14. A dispatch pass only appends to the alert log and only stamps
    subscribers: it leaves the cache and the request count alone, the log
    after the pass is the log before followed by the new alerts, the
    throttle entry of anyone who is not a subscriber is unchanged and that
    of a subscriber is unchanged or set to the instant of the pass.  With no
    cached event or no subscriber the pass changes nothing. *)
Theorem process_events_for_users_frame (t : Z) (USERS : Users) (w : World) :
  let w' := process_events_for_users distance_miles (utc t) USERS w in
  CACHE w' = CACHE w ∧
  http_gets w' = http_gets w ∧
  (∃ new, ALERTS w' = (ALERTS w ++ new)%list) ∧
  (∀ k, k ∉ USERS.*1 → LAST_ALERT w' !! k = LAST_ALERT w !! k) ∧
  (∀ k, LAST_ALERT w' !! k = LAST_ALERT w !! k ∨
        LAST_ALERT w' !! k = Some (isoformat (utc t))) ∧
  (events (CACHE w) = [] ∨ USERS = [] → w' = w).
Proof.
  cbn zeta. rewrite process_events_for_users_eq.
  destruct (process_events_pass t (events (CACHE w)) (USERS.*1) (events (CACHE w))
              USERS w) as (Hc & Hh & (new & Ha & _) & Hk & Hl); [done|done|].
  repeat split; auto.
  - now exists new.
  - intros [-> | ->]; [reflexivity|apply process_users_nil].
Qed.

(** X15. Every alert a dispatch pass appends is a dictionary whose risk
    level is High, Moderate or Low, whose proximity level is the label of
    that risk level and never "Unknown", whose event id and disaster type are
    those of one cached event, and whose timestamp is the instant of the
    pass. *)
Theorem process_events_for_users_alerts (t : Z) (USERS : Users) (w : World) :
  ∃ new,
    ALERTS (process_events_for_users distance_miles (utc t) USERS w)
      = (ALERTS w ++ new)%list ∧
    Forall (dispatched_alert t (events (CACHE w))) new.
Proof.
  rewrite process_events_for_users_eq.
  destruct (process_events_pass t (events (CACHE w)) (USERS.*1) (events (CACHE w))
              USERS w) as (_ & _ & Hnew & _); [done|done|].
  exact Hnew.
Qed.

End Dispatcher.

(** ** At most one alert per subscriber in a pass *)

Lemma filter_length_le {A} (f g : A → bool) (l : list A) :
  (∀ x, g x = true → f x = true) →
  (length (List.filter g l) ≤ length (List.filter f l))%nat.
Proof.
  intros Hfg. induction l as [|a l IH]; [reflexivity|]. cbn [List.filter].
  destruct (g a) eqn:Hg.
  - rewrite (Hfg a Hg). cbn [length]. lia.
  - destruct (f a); cbn [length]; lia.
Qed.

Lemma filter_length_lt {A} (f g : A → bool) (l : list A) (u : A) :
  (∀ x, g x = true → f x = true) →
  u ∈ l → f u = true → g u = false →
  (length (List.filter g l) < length (List.filter f l))%nat.
Proof.
  intros Hfg Hin Hf Hg. induction l as [|a l IH]; [now apply elem_of_nil in Hin|].
  cbn [List.filter]. apply elem_of_cons in Hin as [<- | Hin].
  - rewrite Hf, Hg. cbn [length].
    pose proof (filter_length_le f g l Hfg). lia.
  - specialize (IH Hin). destruct (g a) eqn:Hga.
    + rewrite (Hfg a Hga). cbn [length]. lia.
    + destruct (f a); cbn [length]; lia.
Qed.

Section OncePerPass.
Context {rt : PyRuntime}.
Variable distance_miles : pyval * pyval → float * float → option float.
Variables (t : Z) (dt : datetime).
Hypothesis stamp_nonempty : isoformat (utc t) ≠ "".
Hypothesis stamp_reads_back : fromisoformat (replace_Z (isoformat (utc t))) = Some dt.
Hypothesis stamp_instant : instant dt = t.

Lemma due_stamped (keys : list string) (user_id : string) (w : World) :
  user_id ∈ keys →
  throttle_allows t default_min_hours (LAST_ALERT w !! user_id) = true →
  (length (due t keys (LAST_ALERT (stamped t user_id w)))
   < length (due t keys (LAST_ALERT w)))%nat.
Proof.
  intros Hin Hallow. unfold due.
  assert (Hself : throttle_allows t default_min_hours (Some (isoformat (utc t))) = false).
  { rewrite (throttle_allows_stamp t t default_min_hours dt
               stamp_nonempty stamp_reads_back stamp_instant).
    rewrite Z.sub_diag. reflexivity. }
  apply (filter_length_lt _ _ keys user_id); auto.
  - intros k. destruct (decide (user_id = k)) as [<- | Hne].
    + rewrite stamped_lookup, Hself. discriminate.
    + now rewrite stamped_lookup_ne.
  - now rewrite stamped_lookup.
Qed.

(** The budget never grows. *)
Lemma process_pair_budget (keys : list string) (event : Event) (user_id : string)
    (user : gmap string pyval) (w : World) :
  user_id ∈ keys →
  (budget t keys (process_pair distance_miles (utc t) event user_id user w)
   ≤ budget t keys w)%nat.
Proof.
  intros Hin. unfold budget.
  destruct (process_pair_step distance_miles t event user_id user w)
    as [-> |(Hallow & risk & _ & [-> |(alert & _ & ->)])].
  - lia.
  - pose proof (due_stamped keys user_id w Hin Hallow). cbn [stamped ALERTS set_LAST_ALERT] in *.
    unfold stamped in *. cbn in *. lia.
  - pose proof (due_stamped keys user_id w Hin Hallow).
    unfold stamped in *. cbn in *. rewrite length_app. cbn. lia.
Qed.

Lemma process_users_budget (keys : list string) (event : Event) (USERS : Users)
    (w : World) :
  USERS.*1 ⊆ keys →
  (budget t keys (process_users distance_miles (utc t) event USERS w) ≤ budget t keys w)%nat.
Proof.
  revert w. induction USERS as [|[user_id user] USERS IH]; intros w Hsub; [reflexivity|].
  cbn [process_users]. etransitivity.
  - apply IH. intros k Hk. apply Hsub. cbn. now apply list_elem_of_further.
  - apply process_pair_budget. apply Hsub. cbn. apply list_elem_of_here.
Qed.

Lemma process_events_budget (keys : list string) (evs : list Event) (USERS : Users)
    (w : World) :
  USERS.*1 ⊆ keys →
  (budget t keys (process_events distance_miles (utc t) evs USERS w) ≤ budget t keys w)%nat.
Proof.
  intros Hsub. revert w. induction evs as [|event evs IH]; intros w; [reflexivity|].
  cbn [process_events]. etransitivity; [apply IH|].
  now apply process_users_budget.
Qed.

Lemma throttle_stamped_denies :
  throttle_allows t default_min_hours (Some (isoformat (utc t))) = false.
Proof.
  rewrite (throttle_allows_stamp t t default_min_hours dt
             stamp_nonempty stamp_reads_back stamp_instant).
  rewrite Z.sub_diag. reflexivity.
Qed.

Lemma alert_payload_user (user : gmap string pyval) (event : Event)
    (risk stored_id user_id : string) (alert : pyval) :
  alert_payload (utc t) user event risk = Some alert →
  user !! "user_id" = Some (PyStr stored_id) →
  alert_of_user user_id alert = String.eqb stored_id user_id.
Proof.
  unfold alert_payload. intros H Hid. rewrite Hid in H.
  destruct (classify_alert_level (utc t) (PyStr (ev_timestamp event)))
    as [x|[level desc]]; [discriminate|].
  destruct (user !! "name") as [name|]; [|discriminate].
  cbn [mbind option_bind] in H. injection H as <-.
  unfold alert_of_user, dict_get. now rewrite lookup_insert_eq.
Qed.

(** The budget of one user id never grows either. *)
Lemma process_pair_own_budget (keys : list string) (event : Event)
    (stored_id : string) (user : gmap string pyval) (w : World) (user_id : string) :
  stored_id ∈ keys → user !! "user_id" = Some (PyStr stored_id) →
  (own_budget t keys user_id (process_pair distance_miles (utc t) event stored_id user w)
   ≤ own_budget t keys user_id w)%nat.
Proof.
  intros Hin Hid. unfold own_budget.
  destruct (process_pair_step distance_miles t event stored_id user w)
    as [-> |(Hallow & risk & _ & [-> |(alert & Hpay & ->)])]; [lia| |].
  - cbn [stamped ALERTS set_LAST_ALERT LAST_ALERT].
    destruct (String.eqb_spec stored_id user_id) as [<- |Hne].
    + rewrite lookup_insert_eq, throttle_stamped_denies, Hallow, andb_false_r.
      rewrite bool_decide_eq_true_2 by exact Hin. cbn. lia.
    + rewrite lookup_insert_ne by exact Hne. lia.
  - cbn [stamped ALERTS set_ALERTS set_LAST_ALERT LAST_ALERT].
    rewrite List.filter_app, length_app. cbn [List.filter].
    rewrite (alert_payload_user user event risk stored_id user_id alert Hpay Hid).
    destruct (String.eqb_spec stored_id user_id) as [<- |Hne].
    + rewrite lookup_insert_eq, throttle_stamped_denies, Hallow, andb_false_r.
      rewrite bool_decide_eq_true_2 by exact Hin. cbn. lia.
    + rewrite lookup_insert_ne by exact Hne. cbn. lia.
Qed.

Lemma process_users_own_budget (keys : list string) (event : Event) (USERS : Users)
    (w : World) (user_id : string) :
  USERS.*1 ⊆ keys → stored_under_own_id USERS →
  (own_budget t keys user_id (process_users distance_miles (utc t) event USERS w)
   ≤ own_budget t keys user_id w)%nat.
Proof.
  revert w. induction USERS as [|[stored_id user] USERS IH]; intros w Hsub Hids;
    [reflexivity|].
  apply Forall_cons in Hids as [Hid Hids].
  cbn [process_users]. etransitivity.
  - apply IH; [|exact Hids]. intros k Hk. apply Hsub. cbn. now apply list_elem_of_further.
  - apply process_pair_own_budget; [|exact Hid]. apply Hsub. cbn. apply list_elem_of_here.
Qed.

Lemma process_events_own_budget (keys : list string) (evs : list Event) (USERS : Users)
    (w : World) (user_id : string) :
  USERS.*1 ⊆ keys → stored_under_own_id USERS →
  (own_budget t keys user_id (process_events distance_miles (utc t) evs USERS w)
   ≤ own_budget t keys user_id w)%nat.
Proof.
  intros Hsub Hids. revert w. induction evs as [|event evs IH]; intros w; [reflexivity|].
  cbn [process_events]. etransitivity; [apply IH|].
  now apply process_users_own_budget.
Qed.

End OncePerPass.

(** X16. A subscriber is alerted at most once in a dispatch pass, however
    many cached events are in range, and only if the throttle allows that
    subscriber when the pass starts: among the alerts a pass appends, at
    most one carries a given user id, none carries the id of a subscriber
    the throttle denies at the start of the pass, and none carries an id
    that is no subscriber's (the subscribers being stored under their own
    ids, as [subscribe_user] stores them).  Hence the number of alerts
    appended is at most the number of subscribers the throttle allows at
    the start.  (The clock is read once for the pass, and the timestamp the
    throttle writes is assumed to read back.) *)
Theorem process_events_for_users_once `{rt : PyRuntime}
    (distance_miles : pyval * pyval → float * float → option float)
    (t : Z) (dt : datetime) (USERS : Users) (w : World) :
  isoformat (utc t) ≠ "" →
  fromisoformat (replace_Z (isoformat (utc t))) = Some dt →
  instant dt = t →
  ∃ new,
    ALERTS (process_events_for_users distance_miles (utc t) USERS w)
      = (ALERTS w ++ new)%list ∧
    (stored_under_own_id USERS →
     ∀ user_id,
       (length (List.filter (alert_of_user user_id) new) ≤ 1)%nat ∧
       (throttle_allows t default_min_hours (LAST_ALERT w !! user_id) = false →
        List.filter (alert_of_user user_id) new = []) ∧
       (user_id ∉ USERS.*1 → List.filter (alert_of_user user_id) new = [])) ∧
    (length new ≤ length (due t (USERS.*1) (LAST_ALERT w)))%nat ∧
    (length new ≤ length USERS)%nat.
Proof.
  intros Hne Hback Hinst.
  pose proof (process_events_budget distance_miles t dt Hne Hback Hinst
                (USERS.*1) (events (CACHE w)) USERS w) as Hb.
  assert (Hown : ∀ user_id, stored_under_own_id USERS →
            (own_budget t (USERS.*1) user_id
               (process_events distance_miles (utc t) (events (CACHE w)) USERS w)
             ≤ own_budget t (USERS.*1) user_id w)%nat).
  { intros user_id Hids.
    now apply (process_events_own_budget distance_miles t dt Hne Hback Hinst). }
  rewrite process_events_for_users_eq.
  destruct (process_events_pass distance_miles t (events (CACHE w)) (USERS.*1)
              (events (CACHE w)) USERS w) as (_ & _ & (new & Hnew & _) & _);
    [done|done|].
  exists new. split; [exact Hnew|]. split.
  - intros Hids user_id. specialize (Hown user_id Hids). unfold own_budget in Hown.
    rewrite Hnew, List.filter_app, length_app in Hown.
    set (mine := List.filter (alert_of_user user_id) new) in *.
    repeat split.
    + repeat match type of Hown with
             | context [if ?c then _ else _] => destruct c
             end; lia.
    + intros Hdenied. rewrite Hdenied, andb_false_r in Hown.
      apply length_zero_iff_nil.
      repeat match type of Hown with
             | context [if ?c then _ else _] => destruct c
             end; lia.
    + intros Hnot. rewrite (bool_decide_eq_false_2 _ Hnot) in Hown. cbn [andb] in Hown.
      apply length_zero_iff_nil. lia.
  - unfold budget in Hb. rewrite Hnew, length_app in Hb. specialize (Hb ltac:(done)).
    assert (Hdue : (length (due t (USERS.*1) (LAST_ALERT w)) ≤ length USERS)%nat).
    { unfold due. etransitivity; [apply List.filter_length_le|].
      now rewrite length_fmap. }
    lia.
Qed.

(** Two events in range of two subscribers, one of them alerted an hour
    before: the pass logs one alert, for the other subscriber. *)
Lemma process_events_for_users_once_witness :
  stored_under_own_id sample_users ∧
  ∃ new,
    ALERTS (process_events_for_users (rt := Sample.runtime) ten_miles (utc t_noon)
              sample_users world_two_events)
      = (ALERTS world_two_events ++ new)%list ∧
    List.filter (alert_of_user "u1") new = [] ∧
    (length (List.filter (alert_of_user "u2") new) ≤ 1)%nat ∧
    (length new ≤ length sample_users)%nat.
Proof.
  assert (Hne : isoformat (PyRuntime := Sample.runtime) (utc t_noon) ≠ "")
    by (vm_compute; discriminate).
  assert (Hback : fromisoformat (PyRuntime := Sample.runtime)
                    (replace_Z (isoformat (PyRuntime := Sample.runtime) (utc t_noon)))
                  = Some (utc t_noon)) by (vm_compute; reflexivity).
  assert (Hinst : instant (utc t_noon) = t_noon) by (vm_compute; reflexivity).
  assert (Hids : stored_under_own_id sample_users)
    by (repeat constructor).
  assert (Hdenied : throttle_allows (rt := Sample.runtime) t_noon default_min_hours
                      (LAST_ALERT world_two_events !! "u1") = false)
    by (vm_compute; reflexivity).
  split; [exact Hids|].
  destruct (process_events_for_users_once (rt := Sample.runtime) ten_miles t_noon
              (utc t_noon) sample_users world_two_events Hne Hback Hinst)
    as (new & Hnew & Hown & _ & Hlen).
  exists new. split; [exact Hnew|].
  split; [exact (proj1 (proj2 (Hown Hids "u1")) Hdenied)|].
  split; [exact (proj1 (Hown Hids "u2"))|exact Hlen].
Defined.

(** On the sample, the pass alerts [u2] once, for the first event, and
    leaves [u1] alone. *)
Example dispatch_sample_pass :
  let w' := process_events_for_users (rt := Sample.runtime) ten_miles (utc t_noon)
              sample_users world_two_events in
  length (ALERTS w') = 1%nat ∧
  alert_of_user "u2" <$> head (ALERTS w') = Some true ∧
  LAST_ALERT w' !! "u1" = Some "2024-03-01T11:00:00+00:00" ∧
  LAST_ALERT w' !! "u2" = Some "2024-03-01T12:00:00+00:00".
Proof. vm_compute. repeat split; reflexivity. Qed.

(** The first alias does not parse, the second does and decides. *)
Lemma probe_timestamp_first_truthy_witness :
  Forall (alias_passed (rt := Sample.runtime) record_two_dates) ["fromdate"] ∧
  probe_timestamp (rt := Sample.runtime) ts_fields record_two_dates
  = inr (Some "2024-03-02T06:00:00+00:00").
Proof.
  assert (Hpre : Forall (alias_passed (rt := Sample.runtime) record_two_dates)
                   ["fromdate"]).
  { constructor; [|constructor]. right. exists "yesterday".
    split; vm_compute; reflexivity. }
  split; [exact Hpre|].
  destruct (probe_timestamp_first_truthy (rt := Sample.runtime) ["fromdate"]
              ["publisheddate"; "date"; "fromDate"; "eventDate"] "eventdate"
              record_two_dates Hpre) as (Hparse & _ & _).
  change ts_fields
    with (["fromdate"] ++ "eventdate"
            :: ["publisheddate"; "date"; "fromDate"; "eventDate"])%list.
  rewrite (Hparse "2024-03-02T06:00:00Z"
             (utc (t_2024_03_01 + 30 * us_per_hour))).
  - vm_compute. reflexivity.
  - vm_compute. reflexivity.
  - discriminate.
  - vm_compute. reflexivity.
Defined.

(** ** The manual run *)

Lemma safe_update_events_log `{rt : PyRuntime} (upstream : nat → response)
    (now : datetime) (w : World) :
  ALERTS (safe_update_events upstream now w) = ALERTS w ∧
  LAST_ALERT (safe_update_events upstream now w) = LAST_ALERT w.
Proof.
  rewrite safe_update_events_unfold. cbn zeta.
  destruct (fetch_disaster_data upstream now w).1 as [x|events0]; [now split|].
  destruct (1 <? consecutive_failures (CACHE w)); [|now split].
  now destruct (fetch_recent_gdacs_events _ _ _ _).1.
Qed.

Lemma fetch_disaster_data_down `{rt : PyRuntime} (upstream : nat → response)
    (now : datetime) (w : World) :
  upstream (http_gets w) = HttpFailure →
  (fetch_disaster_data upstream now w).1 = inr [].
Proof.
  intros H. unfold fetch_disaster_data, fetch_gdacs_events, http_get. now rewrite H.
Qed.

(** X17. A manual run fetches first and dispatches on what the fetch left
    in the cache: the alerts it appends are about the events cached after
    the fetch tick, not those cached before, and its answer is the last ten
    entries of the log after the pass (all of them when there are fewer).
    When the request of a live process fails, the tick empties the cache, so
    that the run dispatches nothing, whatever was cached. *)
Theorem manual_process_fetches_first `{rt : PyRuntime}
    (distance_miles : pyval * pyval → float * float → option float)
    (upstream : nat → response) (t : Z) (USERS : Users) (w : World) :
  let r := manual_process distance_miles upstream (utc t) USERS w in
  let w1 := safe_update_events upstream (utc t) w in
  CACHE r.2 = CACHE w1 ∧
  (∃ new, ALERTS r.2 = (ALERTS w ++ new)%list ∧
          Forall (dispatched_alert t (events (CACHE w1))) new) ∧
  r.1 = drop (length (ALERTS r.2) - 10)%nat (ALERTS r.2) ∧
  (upstream (http_gets w) = HttpFailure → consecutive_failures (CACHE w) ≤ 1 →
   events (CACHE r.2) = [] ∧ ALERTS r.2 = ALERTS w ∧ LAST_ALERT r.2 = LAST_ALERT w).
Proof.
  cbn zeta. unfold manual_process. cbn [fst snd].
  set (w1 := safe_update_events upstream (utc t) w).
  destruct (safe_update_events_log upstream (utc t) w) as [Hlog Hlast].
  fold w1 in Hlog, Hlast.
  rewrite process_events_for_users_eq.
  destruct (process_events_pass distance_miles t (events (CACHE w1)) (USERS.*1)
              (events (CACHE w1)) USERS w1) as (Hc & _ & Hnew & _); [done|done|].
  split; [exact Hc|]. split; [now rewrite <- Hlog|].
  split; [now rewrite (slice_from_neg 10) by lia|].
  intros Hdown Hlive.
  destruct (safe_update_events_live upstream (utc t) w []
              (fetch_disaster_data_down upstream (utc t) w Hdown) Hlive) as [Hcache _].
  fold w1 in Hcache. rewrite Hcache. cbn [events process_events].
  now rewrite Hcache.
Qed.

(** ** Loading the persisted state *)

(** X18. Whatever the storage directory holds, [load_data] leaves globals
    the service can start with: the users and the alerts have a length, and
    the cache is a dictionary with a failure counter whose [events] entry,
    when present, has a length.  A cache file holding such a dictionary is
    loaded entry for entry, with the counter set to 0 when the file has
    none; a cache file holding anything else, or one that cannot be read,
    gives the default cache.  (The loaded values are not checked further: a
    users file holding a list is loaded as that list.) *)
Theorem load_data_wellformed (fu fa fc : file) (USERS ALERTS CACHE : pyval) :
  is_Some (py_len USERS) → is_Some (py_len ALERTS) → cache_wellformed CACHE →
  is_Some (py_len (load_users fu USERS)) ∧
  is_Some (py_len (load_alerts fa ALERTS)) ∧
  cache_wellformed (load_cache fc CACHE) ∧
  (∀ d, fc = Holds (PyDict d) →
        is_Some (py_len (dict_get_or d "events" (PyList []))) →
        ∃ d', load_cache fc CACHE = PyDict d' ∧
              d' !! "consecutive_failures"
                = Some (default (PyInt 0) (d !! "consecutive_failures")) ∧
              ∀ k, k ≠ "consecutive_failures" → d' !! k = d !! k) ∧
  (∀ v, fc = Holds v →
        (∀ d, v = PyDict d → py_len (dict_get_or d "events" (PyList [])) = None) →
        load_cache fc CACHE = default_cache) ∧
  (fc = Unreadable → load_cache fc CACHE = default_cache).
Proof.
  intros HU HA HC.
  assert (Hdefault : cache_wellformed default_cache).
  { eexists. split; [reflexivity|]. split; vm_compute; eauto. }
  assert (Hevents : ∀ d : gmap string pyval,
             dict_get_or (<["consecutive_failures" := PyInt 0]> d) "events" (PyList [])
             = dict_get_or d "events" (PyList [])).
  { intros d. unfold dict_get_or. now rewrite lookup_insert_ne. }
  split. { destruct fu as [| |v]; cbn; eauto. destruct (py_len v) eqn:E; cbn; eauto. }
  split. { destruct fa as [| |v]; cbn; eauto. destruct (py_len v) eqn:E; cbn; eauto. }
  split.
  { destruct fc as [| |v]; cbn [load_cache]; auto.
    destruct v as [| | | |s|xs|d]; cbn [py_in_str]; auto.
    case_bool_decide as Hin.
    - destruct (py_len (dict_get_or d "events" (PyList []))) eqn:E; auto.
      exists d. rewrite E. eauto.
    - rewrite Hevents.
      destruct (py_len (dict_get_or d "events" (PyList []))) eqn:E; auto.
      eexists. split; [reflexivity|]. rewrite Hevents, E, lookup_insert_eq. eauto. }
  split.
  { intros d -> [n Hn]. cbn [load_cache py_in_str]. case_bool_decide as Hin.
    - rewrite Hn. exists d. split; [reflexivity|]. destruct Hin as [c Hc].
      rewrite Hc. now split.
    - rewrite Hevents, Hn. eexists. split; [reflexivity|].
      rewrite lookup_insert_eq.
      destruct (d !! "consecutive_failures") eqn:E; [exfalso; eauto|].
      split; [reflexivity|]. intros k Hk. now rewrite lookup_insert_ne. }
  split.
  { intros v -> Hv. cbn [load_cache].
    destruct v as [| | | |s|xs|d]; cbn [py_in_str]; auto.
    specialize (Hv d eq_refl). case_bool_decide; [now rewrite Hv|].
    now rewrite Hevents, Hv. }
  now intros ->.
Qed.

(** A start on an empty storage directory and one on a cache file without
    a counter. *)
Lemma load_data_wellformed_witness :
  cache_wellformed
    (load_cache (Holds (PyDict {["events" := PyList []]})) default_cache) ∧
  is_Some (py_len (load_users Missing (PyDict ∅))).
Proof.
  assert (HU : is_Some (py_len (PyDict ∅))) by (vm_compute; eauto).
  assert (HA : is_Some (py_len (PyList []))) by (vm_compute; eauto).
  assert (HC : cache_wellformed default_cache).
  { eexists. split; [reflexivity|]. split; vm_compute; eauto. }
  destruct (load_data_wellformed Missing Missing
              (Holds (PyDict {["events" := PyList []]}))
              (PyDict ∅) (PyList []) default_cache HU HA HC) as (H1 & _ & H3 & _).
  split; [exact H3|exact H1].
Defined.

(** What is loaded is not checked further: a users file holding a list
    replaces the dictionary of users by that list. *)
Example load_users_accepts_list :
  load_users (Holds (PyList [PyInt 1])) (PyDict ∅) = PyList [PyInt 1].
Proof. reflexivity. Qed.
